(** * Student performance tracker: the grade store

    A shallow embedding of [DatabaseManager] (src/main.py), the data-access
    class of the tracker, together with the part of SQLite's semantics that
    its SQL statements rely on, and of [PerformanceTrackerApp], the window,
    as far as it decides what reaches the store and what it shows.

    Modelling decisions.
    - A Python value bound to a text column is [option string]: [None] is
      Python's [None] (SQL NULL).  A text is a sequence of characters, one
      [ascii] per character (the code points below 256).
    - A value bound to the REAL column [score] is [option Q]: the exact
      value of the Python float.  Infinite scores are outside the model (a
      NaN is NULL to SQLite, and is [None] here).
    - SQLite computes on REAL values in IEEE 754 binary64: [double] is the
      Standard Library's specification of these numbers and of their
      operations with rounding to nearest even.  AVG keeps a running sum in
      a double, adds the values in the order of the table scan (by rowid)
      and divides by the count, as SQLite does up to version 3.43.
    - LIKE reads its pattern and its text as C strings, up to the first NUL
      character, and refuses a pattern of more than 50000 bytes of UTF-8.
    - Values of other Python types, and the conversions SQLite applies to
      them by column affinity, are outside the model.
    - The connection sees a working copy of the table while a transaction is
      open ([txn]); [commit] writes it to the file ([disk]).
    - The environment is a script of faults ([faults]): every statement and
      every commit consumes one entry, and an entry [Some e] makes that call
      raise [e] (disk unavailable, database locked, ...).
    - [print] appends to [stdout]. *)

From Stdlib Require Import Ascii String QArith SpecFloat.
From stdpp Require Import gmap strings list sorting pretty.

Local Open Scope Z_scope.

(** ** Rows of the table [grades] *)

Record Row := mkRow {
  id : Z;
  student_name : option string;
  email : option string;
  class : option string;
  division : option string;
  roll_number : option string;
  subject : option string;
  score : option Q
}.

(** The grades table with the counter SQLite keeps for AUTOINCREMENT (the
    largest row id ever handed out). *)
Record Table := mkTable {
  t_rows : list Row;
  t_seq : Z
}.

Definition empty_table : Table := mkTable [] 0.

(** The arguments of [add_grade], in the order of its parameters. *)
Record Params := mkParams {
  p_student_name : option string;
  p_email : option string;
  p_student_class : option string;
  p_division : option string;
  p_roll_number : option string;
  p_subject : option string;
  p_score : option Q
}.

(** ** Exceptions of the sqlite3 module *)

Inductive exn :=
| IntegrityError (msg : string)
| OperationalError (msg : string)
| ProgrammingError (msg : string).

Definition exn_str (e : exn) : string :=
  match e with
  | IntegrityError m | OperationalError m | ProgrammingError m => m
  end.

Inductive outcome (A : Type) :=
| Returned (a : A)
| Raised (e : exn).
Arguments Returned {A} a.
Arguments Raised {A} e.

(** ** The state: database file, connection, environment *)

Record State := mkState {
  disk : Table;
  txn : option Table;
  closed : bool;
  faults : list (option exn);
  stdout : list string
}.

Definition view (s : State) : Table := default (disk s) (txn s).

Definition set_txn (o : option Table) (s : State) : State :=
  mkState (disk s) o (closed s) (faults s) (stdout s).
Definition set_faults (fs : list (option exn)) (s : State) : State :=
  mkState (disk s) (txn s) (closed s) fs (stdout s).

(** ** A state and exception monad for the methods *)

Definition M (A : Type) : Type := State -> outcome A * State.

Definition ret {A} (a : A) : M A := fun s => (Returned a, s).
Definition bind {A B} (m : M A) (k : A -> M B) : M B :=
  fun s => match m s with
           | (Returned a, s') => k a s'
           | (Raised e, s') => (Raised e, s')
           end.
(** [try: m except Exception as e: h e]; every [exn] is an [Exception]. *)
Definition try_except {A} (m : M A) (h : exn -> M A) : M A :=
  fun s => match m s with
           | (Returned a, s') => (Returned a, s')
           | (Raised e, s') => h e s'
           end.

Notation "'do' x <- m ; k" := (bind m (fun x => k))
  (at level 10, x name, m at level 99, k at level 200).
Notation "m ;; k" := (bind m (fun _ => k))
  (at level 100, k at level 200, right associativity).

Definition print (line : string) : M unit :=
  fun s => (Returned tt,
            mkState (disk s) (txn s) (closed s) (faults s) (stdout s ++ [line])).

(** ** The sqlite3 calls *)

Definition max_rowid : Z := 9223372036854775807.

(** What every call on the connection does first: a closed connection
    refuses, otherwise the environment decides. *)
Definition storage_call : M unit :=
  fun s =>
    if closed s then
      (Raised (ProgrammingError "Cannot operate on a closed database."), s)
    else match faults s with
         | Some e :: fs => (Raised e, set_faults fs s)
         | None :: fs => (Returned tt, set_faults fs s)
         | [] => (Returned tt, s)
         end.

(** The first NOT NULL column of the INSERT that is bound to NULL. *)
Definition not_null_violation (p : Params) : option string :=
  match p_student_name p, p_subject p, p_score p with
  | None, _, _ => Some "student_name"
  | _, None, _ => Some "subject"
  | _, _, None => Some "score"
  | _, _, _ => None
  end.

Definition largest_id (rows : list Row) : Z :=
  foldr (fun r m => Z.max (id r) m) 0 rows.

Definition new_row (k : Z) (p : Params) : Row :=
  mkRow k (p_student_name p) (p_email p) (p_student_class p) (p_division p)
        (p_roll_number p) (p_subject p) (p_score p).

(** INSERT INTO grades (student_name, email, class, division, roll_number,
    subject, score) VALUES (?, ?, ?, ?, ?, ?, ?).  The statement opens a
    transaction if none is open; AUTOINCREMENT picks one more than the
    largest id ever used, and the statement fails when that is the largest
    64-bit id; a failed statement changes nothing. *)
Definition insert_into (p : Params) (t : Table) : outcome Table :=
  let k := Z.max (t_seq t) (largest_id (t_rows t)) in
  if max_rowid <=? k then Raised (OperationalError "database or disk is full")
  else match not_null_violation p with
       | Some col =>
           Raised (IntegrityError ("NOT NULL constraint failed: grades." +:+ col))
       | None => Returned (mkTable (t_rows t ++ [new_row (k + 1) p]) (k + 1))
       end.

Definition execute_insert (p : Params) : M unit :=
  storage_call ;;
  fun s =>
    let t := view s in
    match insert_into p t with
    | Returned t' => (Returned tt, set_txn (Some t') s)
    | Raised e => (Raised e, set_txn (Some t) s)
    end.

(** A SELECT: the query is evaluated on what the connection sees. *)
Definition execute_select {A} (q : Table -> A) : M A :=
  storage_call ;;
  fun s => (Returned (q (view s)), s).

(** [conn.commit()] *)
Definition commit : M unit :=
  storage_call ;;
  fun s => (Returned tt,
            mkState (view s) None (closed s) (faults s) (stdout s)).

(** ** DatabaseManager *)

(** [add_grade(self, student_name, email, student_class, division,
    roll_number, subject, score)] *)
Definition add_grade (p : Params) : M bool :=
  try_except
    (execute_insert p ;;
     commit ;;
     ret true)
    (fun e =>
       print ("Database error while adding grade: " +:+ exn_str e) ;;
       ret false).

(** [close(self)]: uncommitted changes are dropped with the connection. *)
Definition close : M unit :=
  fun s => (Returned tt, mkState (disk s) None true (faults s) (stdout s)).

(** ** The queries *)

(** ORDER BY id DESC *)
Definition id_desc (r1 r2 : Row) : Prop := id r2 <= id r1.
#[global] Instance id_desc_dec : RelDecision id_desc :=
  fun r1 r2 => Z_le_dec (id r2) (id r1).

Definition order_by_id_desc (rows : list Row) : list Row :=
  merge_sort id_desc rows.

(** SELECT id, student_name, email, class, division, roll_number, subject,
    score FROM grades ORDER BY id DESC *)
Definition select_all (t : Table) : list Row :=
  order_by_id_desc (t_rows t).

(** The rows in the order of a table scan: by rowid. *)
Definition id_asc (r1 r2 : Row) : Prop := id r1 <= id r2.
#[global] Instance id_asc_dec : RelDecision id_asc :=
  fun r1 r2 => Z_le_dec (id r1) (id r2).

Definition table_scan (t : Table) : list Row :=
  merge_sort id_asc (t_rows t).

(** LIKE.  Upper and lower case match for the letters of ASCII only. *)
Definition ascii_lower (c : ascii) : ascii :=
  let n := N_of_ascii c in
  if ((65 <=? n) && (n <=? 90))%N then ascii_of_N (n + 32) else c.

Definition like_char (c d : ascii) : bool :=
  bool_decide (ascii_lower c = ascii_lower d).

(** [patternCompare pat s], on C strings: in [pat], a percent sign matches
    any run of characters, an underscore any one character, every other
    character itself up to ASCII case. *)
Fixpoint patternCompare (pat s : string) : bool :=
  match pat with
  | EmptyString => match s with EmptyString => true | String _ _ => false end
  | String c pat' =>
      if bool_decide (c = "%"%char) then
        (fix skip (s : string) : bool :=
           patternCompare pat' s ||
           match s with
           | EmptyString => false
           | String _ s' => skip s'
           end) s
      else
        match s with
        | EmptyString => false
        | String d s' =>
            (bool_decide (c = "_"%char) || like_char c d) && patternCompare pat' s'
        end
  end.

(** The C string of a text: what comes before its first NUL character. *)
Fixpoint cstring (s : string) : string :=
  match s with
  | EmptyString => EmptyString
  | String c s' =>
      if bool_decide (c = "000"%char) then EmptyString else String c (cstring s')
  end.

(** The number of bytes of a text in UTF-8. *)
Definition utf8_bytes (c : ascii) : Z :=
  if (N_of_ascii c <? 128)%N then 1 else 2.

Fixpoint utf8_length (s : string) : Z :=
  match s with
  | EmptyString => 0
  | String c s' => utf8_bytes c + utf8_length s'
  end.

Definition max_like_pattern_length : Z := 50000.

(** [x LIKE pat] on a column value, as the SQL function computes it for
    one row: the length of the pattern is checked first, whatever the
    value; the result is NULL on NULL. *)
Definition like (pat : string) (x : option string) : outcome (option bool) :=
  if max_like_pattern_length <? utf8_length pat then
    Raised (OperationalError "LIKE or GLOB pattern too complex")
  else
    Returned match x with
             | Some s => Some (patternCompare (cstring pat) (cstring s))
             | None => None
             end.

(** WHERE student_name LIKE ?: the test is made row by row; WHERE drops
    the rows for which it is not true, and the statement fails with the
    test. *)
Fixpoint where_like (pat : string) (rows : list Row) : outcome (list Row) :=
  match rows with
  | [] => Returned []
  | r :: rows' =>
      match like pat (student_name r) with
      | Raised e => Raised e
      | Returned b =>
          match where_like pat rows' with
          | Raised e => Raised e
          | Returned l =>
              Returned match b with
                       | Some true => r :: l
                       | _ => l
                       end
          end
      end
  end.

(** SELECT ... FROM grades WHERE student_name LIKE ? ORDER BY id DESC *)
Definition select_like (pat : string) (t : Table) : outcome (list Row) :=
  match where_like pat (t_rows t) with
  | Returned l => Returned (order_by_id_desc l)
  | Raised e => Raised e
  end.

(** REAL arithmetic: IEEE 754 binary64, rounding to nearest even. *)
Definition double : Type := spec_float.

Definition double_zero : double := S754_zero false.
Definition double_add : double -> double -> double := SFadd 53 1024.
Definition double_div : double -> double -> double := SFdiv 53 1024.

(** A 64-bit integer as a double: C's [(double)n]. *)
Definition double_of_Z (n : Z) : double := binary_normalize 53 1024 n 0 false.

(** The double of a stored score: the double nearest to the rational, and
    so the Python float itself when the rational is its exact value. *)
Definition double_of_Q (q : Q) : double :=
  match Qnum q with
  | Z0 => double_zero
  | Zpos n => double_div (S754_finite false n 0) (S754_finite false (Qden q) 0)
  | Zneg n => double_div (S754_finite true n 0) (S754_finite false (Qden q) 0)
  end.

Definition is_nan (d : double) : bool :=
  match d with S754_nan => true | _ => false end.

(** AVG: the running sum, a double, and the number of the values that are
    not NULL; the result is NULL when there are none, and when the quotient
    is not a number. *)
Definition avg_step (acc : double * Z) (x : option Q) : double * Z :=
  match x with
  | Some q => (double_add acc.1 (double_of_Q q), acc.2 + 1)
  | None => acc
  end.

Definition avg_final (acc : double * Z) : option double :=
  if acc.2 =? 0 then None
  else
    let r := double_div acc.1 (double_of_Z acc.2) in
    if is_nan r then None else Some r.

Definition sql_avg (xs : list (option Q)) : option double :=
  avg_final (foldl avg_step (double_zero, 0) xs).

(** SELECT subject, AVG(score) FROM grades GROUP BY subject: one
    accumulator per value of [subject], fed in the order of the scan; the
    order of the groups is whatever the map gives (SQL leaves it open). *)
Definition group_step (m : gmap (option string) (double * Z)) (r : Row)
  : gmap (option string) (double * Z) :=
  <[subject r := avg_step (default (double_zero, 0) (m !! subject r)) (score r)]> m.

Definition group_by_subject (rows : list Row) : gmap (option string) (double * Z) :=
  foldl group_step ∅ rows.

Definition select_avg_by_subject (t : Table)
  : list (option string * option double) :=
  map_to_list (avg_final <$> group_by_subject (table_scan t)).

(** COUNT(id): id is the primary key and never NULL. *)
Definition count_id (rows : list Row) : Z := Z.of_nat (length rows).

(** COUNT(DISTINCT x): the values seen so far, NULL not counted. *)
Definition distinct_step (seen : list string) (x : option string) : list string :=
  match x with
  | Some v => if bool_decide (v ∈ seen) then seen else v :: seen
  | None => seen
  end.

Definition count_distinct (xs : list (option string)) : Z :=
  Z.of_nat (length (foldl distinct_step [] xs)).

(** Python's [x or d] on an int and on a float-or-None: a float is false
    when it is a zero. *)
Definition or_int (x d : Z) : Z := if x =? 0 then d else x.
Definition or_float (x : option double) (d : double) : double :=
  match x with
  | None => d
  | Some (S754_zero _) => d
  | Some r => r
  end.

(** A SELECT whose evaluation can fail. *)
Definition execute_query {A} (q : Table -> outcome A) : M A :=
  storage_call ;;
  fun s => (q (view s), s).

(** [get_all_grades(self)] *)
Definition get_all_grades : M (list Row) :=
  execute_select select_all.

(** [get_filtered_grades(self, search_term)] *)
Definition get_filtered_grades (search_term : string) : M (list Row) :=
  let search_pattern := "%" +:+ search_term +:+ "%" in
  execute_query (select_like search_pattern).

(** [get_average_grades_by_subject(self)] *)
Definition get_average_grades_by_subject
  : M (list (option string * option double)) :=
  execute_select select_avg_by_subject.

(** [get_summary_stats(self)] *)
Definition get_summary_stats : M (Z * double * Z) :=
  do ca <- execute_select
             (fun t => (count_id (t_rows t), sql_avg (score <$> table_scan t)));
  do unique_students <- execute_select
             (fun t => count_distinct (student_name <$> t_rows t));
  ret (or_int ca.1 0, or_float ca.2 double_zero, or_int unique_students 0).

(** CREATE TABLE IF NOT EXISTS grades (...): the table is looked up in the
    file when the connection is made, see [__init__]; the statement itself
    is one more call on the connection. *)
Definition execute_create_table : M unit := storage_call.

(** [_create_table(self)] *)
Definition _create_table : M unit :=
  execute_create_table ;;
  commit.

(** [__init__(self, db_name)]: [file] is the grades table found in the
    database file, if any; [env] is what the environment will do.  The
    connection starts open, outside a transaction, on the table that
    CREATE TABLE IF NOT EXISTS finds or makes. *)
Definition __init__ (file : option Table) (env : list (option exn))
  : outcome unit * State :=
  _create_table (mkState (default empty_table file) None false env []).

(** ** Sequences of calls *)

Inductive Op :=
| OpAdd (p : Params)
| OpAll
| OpFiltered (search_term : string)
| OpAverages
| OpSummary
| OpClose.

Definition step (s : State) (op : Op) : State :=
  match op with
  | OpAdd p => (add_grade p s).2
  | OpAll => (get_all_grades s).2
  | OpFiltered term => (get_filtered_grades term s).2
  | OpAverages => (get_average_grades_by_subject s).2
  | OpSummary => (get_summary_stats s).2
  | OpClose => (close s).2
  end.

Definition run (ops : list Op) (s : State) : State := foldl step s ops.

(** ** Well-formed stores *)

(** What the schema guarantees of a table: [id] is a key, no id exceeds the
    AUTOINCREMENT counter, and the NOT NULL columns hold a value. *)
Definition row_ok (seq : Z) (r : Row) : Prop :=
  id r <= seq ∧ is_Some (student_name r) ∧ is_Some (subject r) ∧ is_Some (score r).

Definition wf_table (t : Table) : Prop :=
  NoDup (id <$> t_rows t) ∧ Forall (row_ok (t_seq t)) (t_rows t).

Definition wf (s : State) : Prop :=
  wf_table (disk s) ∧ wf_table (view s) ∧ t_seq (disk s) <= t_seq (view s).

(** The connection is open and the environment lets the next [n] calls
    through. *)
Definition no_fault (f : option exn) : bool :=
  match f with None => true | Some _ => false end.

Definition ready (n : nat) (s : State) : bool :=
  negb (closed s) && forallb no_fault (take n (faults s)).

(** The next id is not beyond the largest 64-bit id. *)
Definition id_available (t : Table) : bool :=
  bool_decide (Z.max (t_seq t) (largest_id (t_rows t)) < max_rowid).

(** When [add_grade] goes through. *)
Definition insert_ok (p : Params) (s : State) : bool :=
  ready 2 s && id_available (view s) && bool_decide (not_null_violation p = None).

(** The table after a successful INSERT. *)
Definition inserted (p : Params) (t : Table) : Table :=
  let k := Z.max (t_seq t) (largest_id (t_rows t)) in
  mkTable (t_rows t ++ [new_row (k + 1) p]) (k + 1).

Definition failure_line (e : exn) : string :=
  "Database error while adding grade: " +:+ exn_str e.

(** The call left tables, connection and output alone. *)
Definition same_store (s s' : State) : Prop :=
  disk s' = disk s ∧ txn s' = txn s ∧ closed s' = closed s ∧
  stdout s' = stdout s.

(** Every row has a smaller id than all rows before it. *)
Definition strictly_descending (rows : list Row) : Prop :=
  StronglySorted (fun r1 r2 => id r2 < id r1) rows.

(** A property of rows that the rows written by a call have, and that
    all rows of a store have. *)
Definition inserts_keep (P : Row -> Prop) (op : Op) : Prop :=
  ∀ p k, op = OpAdd p -> P (new_row k p).

Definition rows_keep (P : Row -> Prop) (s : State) : Prop :=
  Forall P (t_rows (disk s)) ∧ Forall P (t_rows (view s)).

(** The caller passes a class and a division, as the form of the
    application does. *)
Definition with_class_division (op : Op) : bool :=
  match op with
  | OpAdd p =>
      match p_student_class p, p_division p with
      | Some _, Some _ => true
      | _, _ => false
      end
  | _ => true
  end.

(** ** Stores used in the examples *)

Definition grade (name subj : string) (q : Q) : Params :=
  mkParams (Some name) (Some (name +:+ "@school.example")) (Some "10")
           (Some "A") (Some "7") (Some subj) (Some q).

(** A new database file, opened with nothing going wrong. *)
Definition fresh : State := (__init__ None []).2.

(** A store with three committed records. *)
Definition three : State :=
  run [OpAdd (grade "Alice" "Math" 80); OpAdd (grade "Bob" "Art" 70);
       OpAdd (grade "alice" "Math" 90)] fresh.

(** ** The vocabulary of the specification *)

(** Case folding of a text, on the letters of ASCII. *)
Fixpoint casefold (s : string) : string :=
  match s with
  | EmptyString => EmptyString
  | String c s' => String (ascii_lower c) (casefold s')
  end.

(** [a] occurs in [b] as a run of consecutive characters. *)
Definition infix_of (a b : string) : Prop :=
  ∃ pre post, b = pre +:+ a +:+ post.

(** The same as a test: Python's [a in b]. *)
Fixpoint starts_with (a b : string) : bool :=
  match a, b with
  | EmptyString, _ => true
  | String c a', String d b' => bool_decide (c = d) && starts_with a' b'
  | String _ _, EmptyString => false
  end.

Fixpoint contains (a b : string) : bool :=
  starts_with a b ||
  match b with
  | EmptyString => false
  | String _ b' => contains a b'
  end.

(** The search term has none of the two characters LIKE treats as
    wildcards. *)
Fixpoint no_wildcard (s : string) : bool :=
  match s with
  | EmptyString => true
  | String c s' =>
      negb (bool_decide (c = "%"%char)) && negb (bool_decide (c = "_"%char))
      && no_wildcard s'
  end.





(** The distinct student names. *)
Definition names_of (rows : list Row) : gset string :=
  list_to_set (omap student_name rows).

(** The number a double stands for, when it is one. *)
Definition double_value (d : double) : option Q :=
  match d with
  | S754_zero _ => Some 0%Q
  | S754_finite s m (Zneg e) => Some (cond_Zopp s (Zpos m) # 2 ^ e)
  | S754_finite s m e => Some (inject_Z (cond_Zopp s (Zpos m) * 2 ^ e))
  | S754_infinity _ | S754_nan => None
  end.



(** The student_name of the row, read up to its first NUL character,
    matches the pattern. *)
Definition row_matches (pat : string) (r : Row) : bool :=
  match student_name r with
  | Some name => patternCompare pat (cstring name)
  | None => false
  end.

(** The rows of a listing that a search for [term] keeps, in the order
    of the listing. *)
Definition matching (term : string) (rows : list Row) : list Row :=
  filter (fun r => row_matches (cstring ("%" +:+ term +:+ "%")) r = true) rows.

(** The text has no NUL character. *)
Fixpoint nul_free (s : string) : bool :=
  match s with
  | EmptyString => true
  | String c s' => negb (bool_decide (c = "000"%char)) && nul_free s'
  end.

(** Every insert of the sequence, made in turn, returns [True]. *)
Fixpoint all_added (ps : list Params) (s : State) : bool :=
  match ps with
  | [] => true
  | p :: ps' =>
      match add_grade p s with
      | (Returned true, s') => all_added ps' s'
      | _ => false
      end
  end.

(** A record without class and division, and the store after its insert. *)
Definition eve : Params :=
  mkParams (Some "Eve") None None None None (Some "Math") (Some 50%Q).

Definition with_eve : State := run [OpAdd eve] fresh.

(** Three records of two students, and a store with a subject in two
    spellings. *)
Definition alice_bob_alice : State :=
  run [OpAdd (grade "Alice" "Math" 80); OpAdd (grade "Bob" "Math" 60);
       OpAdd (grade "Alice" "Art" 100)] fresh.

Definition two_spellings : State :=
  run [OpAdd (grade "Dan" "math" 40)] three.

(** Three scores whose mean is not a double. *)
Definition thirds : State :=
  run [OpAdd (grade "Ann" "Math" 80); OpAdd (grade "Ann" "Math" 90);
       OpAdd (grade "Ann" "Math" 95)] fresh.

(** The Python floats 0.1, 0.2 and 0.3, by their exact values, as the
    scores of one subject; and twice the float 1.7e308. *)
Definition tenths : State :=
  run [OpAdd (grade "Ann" "Math" (3602879701896397 # 36028797018963968));
       OpAdd (grade "Ann" "Math" (3602879701896397 # 18014398509481984));
       OpAdd (grade "Ann" "Math" (5404319552844595 # 18014398509481984))]
      fresh.

Definition huge_score : Q :=
  inject_Z 169999999999999993883079578865998174333346074304075874502773119193537729178160565864330091787584707988572262467983188919169916105593357174268369962062473635296474636515660464935663040684957844303524367815028553272712298986386310828644513212353921123253311675499856875650512437415429217994623324794855339589632.

Definition huge : State :=
  run [OpAdd (grade "Ann" "Math" huge_score);
       OpAdd (grade "Ann" "Math" huge_score)] fresh.

(** A search term of 49999 characters. *)
Definition long_term : string := Pos.iter (String "a") EmptyString 49999.

(** The environment fails the next call, or the one after it. *)
Definition disk_error : exn := OperationalError "disk I/O error".

Definition failing_insert : State :=
  mkState (disk three) None false [Some disk_error] [].

Definition failing_commit : State :=
  mkState (disk three) None false [None; Some disk_error] [].

(** ** The order of insertion *)

(** The rows stand in the order of their insertion, ids growing. *)
Definition ascending (rows : list Row) : Prop :=
  StronglySorted (fun r1 r2 => id r1 < id r2) rows.

(** What the connection sees continues what the file holds, both in the
    order of insertion. *)
Definition in_order (s : State) : Prop :=
  ascending (t_rows (view s)) ∧ t_rows (disk s) `prefix_of` t_rows (view s).

(** The rows that [k] valid inserts append after the counter [seq]. *)
Fixpoint appended (seq : Z) (ps : list Params) : list Row :=
  match ps with
  | [] => []
  | p :: ps' => new_row (seq + 1) p :: appended (seq + 1) ps'
  end.

(** Closing the store and opening its file again. *)
Definition reopen (env : list (option exn)) (s : State) : outcome unit * State :=
  __init__ (Some (disk (close s).2)) env.


(** ** The application window

    [PerformanceTrackerApp] is modelled as far as it decides what reaches
    the store and what the form, the table and the cards show.  An entry
    is the text it holds; a message box is an entry in [dialogs]; the rows
    of the Treeview are [tree]; the chart is the data handed to the bar
    plot, its drawing is not modelled.  Python's [float] on a text ([None]
    for a ValueError) and its format [.1f] are parameters of the model. *)

(** [0 <= score <= 100]: false of the infinities and of NaN. *)
Definition in_range (score : double) : bool :=
  match double_value score with
  | Some q => Qle_bool 0 q && Qle_bool q 100
  | None => false
  end.

(** [overall_avg > 0] *)
Definition is_positive (d : double) : bool :=
  match d with
  | S754_finite false _ _ | S754_infinity false => true
  | _ => false
  end.

(** [str.isspace] on one character, and [str.strip]. *)
Definition isspace (c : ascii) : bool :=
  let n := N_of_ascii c in
  ((9 <=? n) && (n <=? 13) || (28 <=? n) && (n <=? 32)
   || (n =? 133) || (n =? 160))%N.

Fixpoint lstrip (s : string) : string :=
  match s with
  | EmptyString => EmptyString
  | String c s' => if isspace c then lstrip s' else s
  end.

Fixpoint rstrip (s : string) : string :=
  match s with
  | EmptyString => EmptyString
  | String c s' =>
      match rstrip s' with
      | EmptyString => if isspace c then EmptyString else String c EmptyString
      | String d r => String c (String d r)
      end
  end.

Definition strip (s : string) : string := rstrip (lstrip s).

Inductive Dialog :=
| showerror (title message : string)
| showinfo (title message : string).

(** A row of the Treeview: the first seven values of a record and the
    formatted score. *)
Record Item := mkItem {
  i_id : Z;
  i_student : option string;
  i_email : option string;
  i_class : option string;
  i_div : option string;
  i_roll : option string;
  i_subject : option string;
  i_score : string
}.

Inductive Chart :=
| Blank
| Placeholder
| Bars (subjects : list (option string)) (averages : list (option double)).

Record App := mkApp {
  db : State;
  name_entry : string;
  email_entry : string;
  class_entry : string;
  division_entry : string;
  roll_entry : string;
  subject_entry : string;
  score_entry : string;
  search_term_var : string;
  total_records_var : string;
  overall_avg_var : string;
  unique_students_var : string;
  tree : list Item;
  chart : Chart;
  dialogs : list Dialog;
  destroyed : bool
}.

(** What a method of the window can raise: an error of the store, or a
    TypeError when a NULL is formatted as a number. *)
Inductive app_exn :=
| DbError (e : exn)
| TypeError.

Inductive result (A : Type) :=
| Done (a : A)
| Failed (e : app_exn).
Arguments Done {A} a.
Arguments Failed {A} e.

Definition AppM (A : Type) : Type := App -> result A * App.

Definition aret {A} (x : A) : AppM A := fun a => (Done x, a).
Definition abind {A B} (m : AppM A) (k : A -> AppM B) : AppM B :=
  fun a => match m a with
           | (Done x, a') => k x a'
           | (Failed e, a') => (Failed e, a')
           end.

Notation "'app' x <- m ; k" := (abind m (fun x => k))
  (at level 10, x name, m at level 99, k at level 200).
Notation "m >> k" := (abind m (fun _ => k))
  (at level 100, k at level 200, right associativity).

Definition set_db (s : State) (a : App) : App :=
  mkApp s (name_entry a) (email_entry a) (class_entry a) (division_entry a)
        (roll_entry a) (subject_entry a) (score_entry a) (search_term_var a)
        (total_records_var a) (overall_avg_var a) (unique_students_var a)
        (tree a) (chart a) (dialogs a) (destroyed a).

(** A call on [self.db]. *)
Definition call_db {A} (m : M A) : AppM A :=
  fun a => match m (db a) with
           | (Returned x, s) => (Done x, set_db s a)
           | (Raised e, s) => (Failed (DbError e), set_db s a)
           end.

Definition message (d : Dialog) : AppM unit :=
  fun a => (Done tt,
            mkApp (db a) (name_entry a) (email_entry a) (class_entry a)
                  (division_entry a) (roll_entry a) (subject_entry a)
                  (score_entry a) (search_term_var a) (total_records_var a)
                  (overall_avg_var a) (unique_students_var a) (tree a)
                  (chart a) (dialogs a ++ [d]) (destroyed a)).

Definition set_cards (total avg unique : string) : AppM unit :=
  fun a => (Done tt,
            mkApp (db a) (name_entry a) (email_entry a) (class_entry a)
                  (division_entry a) (roll_entry a) (subject_entry a)
                  (score_entry a) (search_term_var a) total avg unique
                  (tree a) (chart a) (dialogs a) (destroyed a)).

Definition set_tree (items : list Item) : AppM unit :=
  fun a => (Done tt,
            mkApp (db a) (name_entry a) (email_entry a) (class_entry a)
                  (division_entry a) (roll_entry a) (subject_entry a)
                  (score_entry a) (search_term_var a) (total_records_var a)
                  (overall_avg_var a) (unique_students_var a) items
                  (chart a) (dialogs a) (destroyed a)).

Definition set_chart (c : Chart) : AppM unit :=
  fun a => (Done tt,
            mkApp (db a) (name_entry a) (email_entry a) (class_entry a)
                  (division_entry a) (roll_entry a) (subject_entry a)
                  (score_entry a) (search_term_var a) (total_records_var a)
                  (overall_avg_var a) (unique_students_var a) (tree a)
                  c (dialogs a) (destroyed a)).

(** The five entries that a successful save empties. *)
Definition clear_entries : AppM unit :=
  fun a => (Done tt,
            mkApp (db a) "" "" (class_entry a) (division_entry a) ""
                  "" "" (search_term_var a) (total_records_var a)
                  (overall_avg_var a) (unique_students_var a) (tree a)
                  (chart a) (dialogs a) (destroyed a)).

Definition afail {A} (e : app_exn) : AppM A := fun a => (Failed e, a).

Definition tree_insert (it : Item) : AppM unit :=
  fun a => (Done tt,
            mkApp (db a) (name_entry a) (email_entry a) (class_entry a)
                  (division_entry a) (roll_entry a) (subject_entry a)
                  (score_entry a) (search_term_var a) (total_records_var a)
                  (overall_avg_var a) (unique_students_var a)
                  (tree a ++ [it]) (chart a) (dialogs a) (destroyed a)).

Definition set_search (text : string) : AppM unit :=
  fun a => (Done tt,
            mkApp (db a) (name_entry a) (email_entry a) (class_entry a)
                  (division_entry a) (roll_entry a) (subject_entry a)
                  (score_entry a) text (total_records_var a)
                  (overall_avg_var a) (unique_students_var a) (tree a)
                  (chart a) (dialogs a) (destroyed a)).

Definition set_destroyed : AppM unit :=
  fun a => (Done tt,
            mkApp (db a) (name_entry a) (email_entry a) (class_entry a)
                  (division_entry a) (roll_entry a) (subject_entry a)
                  (score_entry a) (search_term_var a) (total_records_var a)
                  (overall_avg_var a) (unique_students_var a) (tree a)
                  (chart a) (dialogs a) true).

(** The entries of the form. *)
Inductive Field :=
| FName | FEmail | FClass | FDivision | FRoll | FSubject | FScore.

#[global] Instance Field_eq_dec : EqDecision Field.
Proof. solve_decision. Defined.

(** The user replaces the text of one entry. *)
Definition set_entry (f : Field) (text : string) (a : App) : App :=
  let e g := if bool_decide (f = g) then text else
             match g with
             | FName => name_entry a | FEmail => email_entry a
             | FClass => class_entry a | FDivision => division_entry a
             | FRoll => roll_entry a | FSubject => subject_entry a
             | FScore => score_entry a
             end in
  mkApp (db a) (e FName) (e FEmail) (e FClass) (e FDivision) (e FRoll)
        (e FSubject) (e FScore) (search_term_var a) (total_records_var a)
        (overall_avg_var a) (unique_students_var a) (tree a) (chart a)
        (dialogs a) (destroyed a).

(** What the user does. *)
Inductive Event :=
| EvType (f : Field) (text : string)
| EvSearch (text : string)
| EvSave
| EvChart
| EvClose.

Module PerformanceTrackerApp.
Section builtins.

Variable float : string -> option double.
Variable format_1f : double -> string.

(** [update_kpi_cards(self)] *)
Definition update_kpi_cards : AppM unit :=
  app stats <- call_db get_summary_stats;
  let total_records := stats.1.1 in
  let overall_avg := stats.1.2 in
  let unique_students := stats.2 in
  set_cards (pretty total_records)
            (if is_positive overall_avg
             then format_1f overall_avg +:+ " %" else "0.0 %")
            (pretty unique_students).

(** The loop of [load_grades] over the rows read; the score comes back
    from the store as a float. *)
Fixpoint insert_grades (grades : list Row) : AppM unit :=
  match grades with
  | [] => aret tt
  | grade :: rest =>
      match score grade with
      | None => afail TypeError
      | Some q =>
          tree_insert (mkItem (id grade) (student_name grade) (email grade)
                              (class grade) (division grade)
                              (roll_number grade) (subject grade)
                              (format_1f (double_of_Q q))) >>
          insert_grades rest
      end
  end.

(** [load_grades(self, search_term="")] *)
Definition load_grades (search_term : string) : AppM unit :=
  update_kpi_cards >>
  set_tree [] >>
  app grades <- (if bool_decide (search_term = "")
                 then call_db get_all_grades
                 else call_db (get_filtered_grades search_term));
  insert_grades grades.

(** [generate_chart(self, placeholder=False)] *)
Definition generate_chart (placeholder : bool) : AppM unit :=
  set_chart Blank >>
  if placeholder then set_chart Placeholder
  else
    app avg_grades <- call_db get_average_grades_by_subject;
    match avg_grades with
    | [] =>
        message (showinfo "Chart Info" "Not enough data. Add some grades first!") >>
        set_chart Blank >>
        set_chart Placeholder
    | _ :: _ => set_chart (Bars avg_grades.*1 avg_grades.*2)
    end.

(** [add_grade(self)] *)
Definition add_grade : AppM unit :=
  fun a =>
    let name := strip (name_entry a) in
    let email := strip (email_entry a) in
    let student_class := strip (class_entry a) in
    let division := strip (division_entry a) in
    let roll_number := strip (roll_entry a) in
    let subject := strip (subject_entry a) in
    let score_str := strip (score_entry a) in
    if bool_decide (name = "") || bool_decide (student_class = "")
       || bool_decide (division = "") || bool_decide (subject = "")
       || bool_decide (score_str = "")
    then message (showerror "Input Error"
           "Name, Class, Division, Subject, and Score are required fields.") a
    else
      match float score_str with
      | None =>
          message (showerror "Input Error" "Score must be a valid number.") a
      | Some score =>
          if negb (in_range score)
          then message (showerror "Input Error"
                 "Score must be a numerical value between 0 and 100.") a
          else
            (app saved <- call_db
                 (add_grade (mkParams (Some name) (Some email)
                               (Some student_class) (Some division)
                               (Some roll_number) (Some subject)
                               (double_value score)));
             if (saved : bool) then
               message (showinfo "Success"
                          ("Record for " +:+ name +:+ " added.")) >>
               clear_entries >>
               load_grades "" >>
               generate_chart false
             else
               message (showerror "Database Error" "Failed to save record.")) a
      end.

(** [on_closing(self)] *)
Definition on_closing : AppM unit :=
  fun a =>
    match call_db close a with
    | (Done _, a') => set_destroyed a'
    | (Failed e, a') =>
        (call_db (print ("Error during database closure: " +:+
                         match e with
                         | DbError e' => exn_str e'
                         | TypeError => ""
                         end)) >>
         set_destroyed) a'
    end.

(** [__init__(self)]: the store is opened, the cards, the form and the
    search box start empty, the table is loaded and the chart area shows
    the placeholder. *)
Definition __init__ (file : option Table) (env : list (option exn))
  : result unit * App :=
  let start s :=
    mkApp s "" "" "" "" "" "" "" "" "0" "0.0 %" "0" [] Blank [] false in
  match __init__ file env with
  | (Raised e, s) => (Failed (DbError e), start s)
  | (Returned _, s) => (load_grades "" >> generate_chart true) (start s)
  end.

(** One event of the main loop.  The handler of the search box is
    [load_grades] on the new text.  An exception that leaves a handler is
    reported by Tk and the loop goes on; a destroyed window gets no
    events. *)
Definition handle (a : App) (ev : Event) : App :=
  if destroyed a then a
  else match ev with
       | EvType f text => set_entry f text a
       | EvSearch text => ((set_search text >> load_grades text) a).2
       | EvSave => (add_grade a).2
       | EvChart => (generate_chart false a).2
       | EvClose => (on_closing a).2
       end.

Definition mainloop (evs : list Event) (a : App) : App := foldl handle a evs.

End builtins.
End PerformanceTrackerApp.

(** ** Windows used in the examples *)

(** Stand-ins for the two builtins: a [float] that reads runs of digits
    only, and a format that prints the integer part. *)
Fixpoint digits_value (acc : Z) (s : string) : option Z :=
  match s with
  | EmptyString => Some acc
  | String c s' =>
      match Ascii.is_nat c with
      | Some d => digits_value (10 * acc + Z.of_nat d) s'
      | None => None
      end
  end.

Definition digits_float (s : string) : option double :=
  match s with
  | EmptyString => None
  | String _ _ => double_of_Z <$> digits_value 0 s
  end.

Definition integer_format (d : double) : string :=
  match double_value d with
  | Some q => pretty (Qnum q / Z.pos (Qden q)) +:+ ".0"
  | None => "inf"
  end.

(** The window on a new database, and the form filled in for Alice. *)
Definition window : App :=
  (PerformanceTrackerApp.__init__ integer_format None []).2.

Definition alice_form : list Event :=
  [EvType FName " Alice "; EvType FClass "10"; EvType FDivision "A";
   EvType FSubject "Math"; EvType FScore "80"].

(** ** The vocabulary for the window *)

(** A row as the form lets it through: the four required texts are not
    empty, email and roll number are texts, the score lies in [0, 100]. *)
Definition nonempty (x : option string) : Prop :=
  ∃ s, x = Some s ∧ s ≠ "".

Definition form_row (r : Row) : Prop :=
  nonempty (student_name r) ∧ nonempty (class r) ∧ nonempty (division r) ∧
  nonempty (subject r) ∧ is_Some (email r) ∧ is_Some (roll_number r) ∧
  ∃ q, score r = Some q ∧ (0 <= q)%Q ∧ (q <= 100)%Q.

(** The store of [a'] is the store of [a] after some calls, whose inserts
    write rows with the property [P]. *)
Definition via (P : Row -> Prop) (a a' : App) : Prop :=
  ∃ ops, db a' = run ops (db a) ∧ Forall (inserts_keep P) ops.

(** The seven entries of the form hold the same texts. *)
Definition same_form (a a' : App) : Prop :=
  name_entry a' = name_entry a ∧ email_entry a' = email_entry a ∧
  class_entry a' = class_entry a ∧ division_entry a' = division_entry a ∧
  roll_entry a' = roll_entry a ∧ subject_entry a' = subject_entry a ∧
  score_entry a' = score_entry a.

(** The record that [add_grade] of the window hands to the store. *)
Definition form_params (a : App) (q : Q) : Params :=
  mkParams (Some (strip (name_entry a))) (Some (strip (email_entry a)))
           (Some (strip (class_entry a))) (Some (strip (division_entry a)))
           (Some (strip (roll_entry a))) (Some (strip (subject_entry a)))
           (Some q).

(** The required entries are not blank. *)
Definition required_filled (a : App) : Prop :=
  strip (name_entry a) ≠ "" ∧ strip (class_entry a) ≠ "" ∧
  strip (division_entry a) ≠ "" ∧ strip (subject_entry a) ≠ "" ∧
  strip (score_entry a) ≠ "".

(** The form, the search box and the window are as before, and no message
    box was taken back. *)
Definition keeps_form (a a' : App) : Prop :=
  same_form a a' ∧ search_term_var a' = search_term_var a ∧
  dialogs a `prefix_of` dialogs a' ∧ destroyed a' = destroyed a.

(** The window when the store has taken the record: the new store, the
    "Success" box, the five entries emptied; the reload is still to come. *)
Definition saved_form (s' : State) (a : App) : App :=
  mkApp s' "" "" (class_entry a) (division_entry a) "" "" ""
        (search_term_var a) (total_records_var a) (overall_avg_var a)
        (unique_students_var a) (tree a) (chart a)
        (dialogs a ++
         [showinfo "Success"
            ("Record for " +:+ strip (name_entry a) +:+ " added.")])
        (destroyed a).

(** The row of the Treeview for a record. *)
Definition item_of (format_1f : double -> string) (r : Row) : Item :=
  mkItem (id r) (student_name r) (email r) (class r) (division r)
         (roll_number r) (subject r)
         (format_1f (double_of_Q (default 0%Q (score r)))).

(** The three numbers of [get_summary_stats] for a table. *)
Definition summary_of (t : Table) : Z * double * Z :=
  (or_int (count_id (t_rows t)) 0,
   or_float (sql_avg (score <$> table_scan t)) double_zero,
   or_int (count_distinct (student_name <$> t_rows t)) 0).

(** The rows of a listing that [load_grades] shows for a search term: all
    of them for the empty term. *)
Definition shown (search_term : string) (rows : list Row) : list Row :=
  if bool_decide (search_term = "") then rows else matching search_term rows.

(** The form filled in for Alice in a window on a new database, and in a
    window whose store fails the next call. *)
Definition alice_typed : App :=
  set_entry FScore "80"
    (set_entry FSubject "Math"
       (set_entry FDivision "A"
          (set_entry FClass "10" (set_entry FName " Alice " window)))).

Definition alice_typed_failing : App := set_db failing_insert alice_typed.

(** The score of the form for Alice, as a double and as a number. *)
Definition eighty : double := double_of_Z 80.
Definition eighty_value : Q := 5629499534213120 # 70368744177664.

(** ** The calls, one at a time *)

Lemma storage_call_closed s :
  closed s = true ->
  storage_call s =
    (Raised (ProgrammingError "Cannot operate on a closed database."), s).
Proof. intros Hc. unfold storage_call. by rewrite Hc. Qed.

Lemma storage_call_ready n s :
  ready (S n) s = true ->
  storage_call s = (Returned tt, set_faults (drop 1 (faults s)) s) ∧
  ready n (set_faults (drop 1 (faults s)) s) = true.
Proof.
  unfold ready, storage_call. destruct s as [d t c fs out]; simpl.
  destruct c; simpl; [done|].
  destruct fs as [|[e|] fs]; simpl.
  - intros _. split; [done|]. by rewrite take_nil.
  - done.
  - intros H. split; [done|]. by rewrite drop_0.
Qed.

Lemma storage_call_outcome s :
  (∃ e s', storage_call s = (Raised e, s') ∧ disk s' = disk s ∧
           txn s' = txn s ∧ closed s' = closed s ∧ stdout s' = stdout s) ∨
  (storage_call s = (Returned tt, set_faults (drop 1 (faults s)) s) ∧
   ready 1 s = true).
Proof.
  unfold ready, storage_call. destruct s as [d t c fs out]; simpl.
  destruct c; simpl; [left; eauto 10|].
  destruct fs as [|[e|] fs]; simpl.
  - by right.
  - left. eauto 10.
  - right. by rewrite drop_0.
Qed.

Lemma forallb_take_le {A} (f : A -> bool) (l : list A) n m :
  (n <= m)%nat -> forallb f (take m l) = true -> forallb f (take n l) = true.
Proof.
  revert n m. induction l as [|x l IH]; intros n m Hle.
  - by rewrite !take_nil.
  - destruct n as [|n]; [done|]. destruct m as [|m]; [lia|]. simpl.
    intros [Hx Hl]%andb_prop. rewrite Hx. simpl. apply (IH n m); [lia|done].
Qed.

Lemma ready_le n m s : (n <= m)%nat -> ready m s = true -> ready n s = true.
Proof.
  unfold ready. intros Hle [Hc Hf]%andb_prop. rewrite Hc. simpl.
  by apply (forallb_take_le _ _ n m).
Qed.

Lemma insert_into_ok p t :
  id_available t = true -> not_null_violation p = None ->
  insert_into p t = Returned (inserted p t).
Proof.
  unfold id_available, insert_into, inserted.
  intros Hk%bool_decide_eq_true ->.
  destruct (Z.leb_spec max_rowid (Z.max (t_seq t) (largest_id (t_rows t))));
    [lia|done].
Qed.

Lemma insert_into_fail p t :
  id_available t && bool_decide (not_null_violation p = None) = false ->
  ∃ e, insert_into p t = Raised e.
Proof.
  unfold id_available, insert_into. intros H.
  destruct (Z.leb_spec max_rowid (Z.max (t_seq t) (largest_id (t_rows t))));
    [eauto|].
  destruct (not_null_violation p) as [col|]; [eauto|].
  rewrite bool_decide_eq_true_2 in H by done. done.
Qed.

Lemma execute_insert_ready p s :
  ready 1 s = true ->
  execute_insert p s =
    let s1 := set_faults (drop 1 (faults s)) s in
    match insert_into p (view s) with
    | Returned t' => (Returned tt, set_txn (Some t') s1)
    | Raised e => (Raised e, set_txn (Some (view s)) s1)
    end.
Proof.
  intros Hr. unfold execute_insert, bind.
  destruct (storage_call_ready 0 s Hr) as [-> _]. done.
Qed.

Lemma commit_ready s :
  ready 1 s = true ->
  commit s =
    (Returned tt, mkState (view s) None false (drop 1 (faults s)) (stdout s)).
Proof.
  intros Hr. unfold commit, bind.
  destruct (storage_call_ready 0 s Hr) as [-> _]. simpl.
  apply andb_prop in Hr as [Hc _]. apply negb_true_iff in Hc. by rewrite Hc.
Qed.

(** The exact effect of a successful [add_grade]. *)
Lemma add_grade_success p s :
  insert_ok p s = true ->
  add_grade p s =
    (Returned true,
     mkState (inserted p (view s)) None false (drop 2 (faults s)) (stdout s)).
Proof.
  unfold insert_ok. intros [[Hr Hk]%andb_prop Hn%bool_decide_eq_true]%andb_prop.
  destruct (storage_call_ready 1 s Hr) as [_ Hr1].
  unfold add_grade, try_except. unfold bind at 1.
  rewrite execute_insert_ready by (apply (ready_le 1 2); [lia|done]).
  rewrite insert_into_ok by done. cbv zeta.
  unfold bind at 1. rewrite commit_ready by done. simpl.
  by rewrite drop_drop.
Qed.

(** A failed [add_grade] returns [False], prints one line and leaves the
    file as it was; the connection may be left inside a transaction. *)
Lemma add_grade_failure p s :
  insert_ok p s = false ->
  ∃ e s', add_grade p s = (Returned false, s') ∧
          disk s' = disk s ∧ closed s' = closed s ∧
          stdout s' = stdout s ++ [failure_line e] ∧
          (txn s' = txn s ∨ txn s' = Some (view s) ∨
           (txn s' = Some (inserted p (view s)) ∧ not_null_violation p = None)).
Proof.
  intros Hno. unfold add_grade, try_except. unfold bind at 1.
  unfold execute_insert. unfold bind at 1.
  destruct (storage_call_outcome s) as [(e & s1 & -> & Hd & Ht & Hc & Ho)|[-> Hr]].
  { exists e. eexists. split; [done|]. simpl. rewrite Hd, Ht, Hc, Ho. eauto. }
  set (s1 := set_faults (drop 1 (faults s)) s).
  change (view s1) with (view s).
  destruct (insert_into p (view s)) as [t'|e] eqn:Hins.
  2:{ exists e. eexists. split; [done|]. simpl. eauto 10. }
  unfold bind at 1. unfold commit. unfold bind at 1.
  destruct (storage_call_outcome (set_txn (Some t') s1))
    as [(e & s2 & -> & Hd & Ht & Hc & Ho)|[-> Hr2]].
  { exists e. eexists. split; [done|]. simpl. rewrite Hd, Ht, Hc, Ho. simpl.
    repeat split; try done. right. right.
    destruct (id_available (view s)) eqn:Hk;
      [|destruct (insert_into_fail p (view s)) as [e' He']; [by rewrite Hk|congruence]].
    destruct (not_null_violation p) eqn:Hn.
    - destruct (insert_into_fail p (view s)) as [e' He'];
        [by rewrite Hk, Hn|congruence].
    - rewrite insert_into_ok in Hins by done. split; congruence. }
  exfalso.
  assert (ready 2 s = true) as Hr02.
  { clear -Hr Hr2. unfold ready in *. destruct s as [d t c fs out]. simpl in *.
    destruct c; [done|]. simpl in *. destruct fs as [|f fs]; [done|].
    simpl in *. rewrite drop_0 in Hr2. apply andb_prop in Hr as [-> _].
    destruct fs; [done|]. simpl in *. by apply andb_prop in Hr2 as [-> _]. }
  unfold insert_ok in Hno. rewrite Hr02 in Hno. simpl in Hno.
  destruct (insert_into_fail p (view s)) as [e' He']; [|congruence].
  destruct (id_available (view s)); done.
Qed.

(** [add_grade] in terms of its two calls: the handler turns what they
    raise into [False]. *)
Lemma add_grade_calls p s :
  add_grade p s =
    match (execute_insert p ;; commit) s with
    | (Returned _, s1) => (Returned true, s1)
    | (Raised e, s1) => (Returned false, (print (failure_line e) s1).2)
    end.
Proof.
  unfold add_grade, try_except, bind, ret, print, failure_line.
  destruct (execute_insert p s) as [[[]|e] s1]; [|done].
  by destruct (commit s1) as [[[]|e] s2].
Qed.

(** On a closed connection the INSERT is refused at once. *)
Lemma add_grade_closed p s :
  closed s = true ->
  add_grade p s =
    (Returned false,
     mkState (disk s) (txn s) true (faults s)
       (stdout s ++
        [failure_line (ProgrammingError "Cannot operate on a closed database.")])).
Proof.
  intros Hc. unfold add_grade, try_except, execute_insert.
  unfold bind at 1. unfold bind at 1.
  rewrite storage_call_closed by done.
  unfold bind, print, ret. by rewrite Hc.
Qed.

(** ** What a call can do to the tables *)

Lemma same_store_view s s' : same_store s s' -> view s' = view s.
Proof. intros (Hd & Ht & _). unfold view. by rewrite Hd, Ht. Qed.

Lemma storage_call_same s : same_store s (storage_call s).2.
Proof.
  destruct (storage_call_outcome s) as [(e & s1 & -> & Hd & Ht & Hc & Ho)|[-> _]];
    by repeat split.
Qed.

Lemma execute_select_same {A} (q : Table -> A) s :
  same_store s (execute_select q s).2.
Proof.
  unfold execute_select, bind. pose proof (storage_call_same s) as H.
  by destruct (storage_call s) as [[[]|e] s1].
Qed.

Lemma execute_query_same {A} (q : Table -> outcome A) s :
  same_store s (execute_query q s).2.
Proof.
  unfold execute_query, bind. pose proof (storage_call_same s) as H.
  by destruct (storage_call s) as [[[]|e] s1].
Qed.

Lemma same_store_trans s1 s2 s3 :
  same_store s1 s2 -> same_store s2 s3 -> same_store s1 s3.
Proof.
  intros (?&?&?&?) (?&?&?&?). repeat split; congruence.
Qed.

Lemma get_summary_stats_same s : same_store s (get_summary_stats s).2.
Proof.
  unfold get_summary_stats. unfold bind at 1.
  pose proof (execute_select_same
    (fun t => (count_id (t_rows t), sql_avg (score <$> table_scan t))) s) as H1.
  destruct (execute_select _ s) as [[ca|e] s1]; [|done].
  unfold bind.
  pose proof (execute_select_same
    (fun t => count_distinct (student_name <$> t_rows t)) s1) as H2.
  destruct (execute_select _ s1) as [[u|e] s2]; simpl in *;
    by apply (same_store_trans s s1 s2).
Qed.

(** The tables after one call: nothing changed; or the connection was
    closed and its pending rows dropped; or a row was inserted and, if the
    commit went through, written to the file. *)
Lemma step_tables s op :
  (disk (step s op) = disk s ∧ view (step s op) = view s) ∨
  (disk (step s op) = disk s ∧ view (step s op) = disk s) ∨
  (∃ p, op = OpAdd p ∧ not_null_violation p = None ∧
        view (step s op) = inserted p (view s) ∧
        (disk (step s op) = disk s ∨ disk (step s op) = inserted p (view s))).
Proof.
  assert (∀ s', same_store s s' -> disk s' = disk s ∧ view s' = view s) as Hsame.
  { intros s' H. split; [apply H|by apply same_store_view]. }
  destruct op as [p| |term| | |]; simpl.
  - destruct (insert_ok p s) eqn:Hok.
    + rewrite add_grade_success by done. simpl.
      apply andb_prop in Hok as [_ Hn%bool_decide_eq_true].
      right. right. exists p. eauto 10.
    + destruct (add_grade_failure p s Hok)
        as (e & s' & -> & Hd & Hc & Ho & [Ht|[Ht|[Ht Hn]]]); simpl;
        unfold view; rewrite Ht, Hd; eauto 10.
  - left. apply Hsame, execute_select_same.
  - left. apply Hsame, execute_query_same.
  - left. apply Hsame, execute_select_same.
  - left. apply Hsame, get_summary_stats_same.
  - right. by left.
Qed.

Lemma largest_id_ge rows r : r ∈ rows -> id r <= largest_id rows.
Proof.
  induction 1 as [r rows|r r' rows _ IH]; simpl; lia.
Qed.

Lemma wf_table_inserted p t :
  wf_table t -> not_null_violation p = None -> wf_table (inserted p t).
Proof.
  intros [Hnd Hrows] Hn. unfold inserted.
  set (k := Z.max (t_seq t) (largest_id (t_rows t))).
  split; simpl.
  - rewrite fmap_app. simpl. apply NoDup_app.
    split_and!; [done| |apply NoDup_singleton].
    intros i Hi Hi'. apply list_elem_of_singleton in Hi'. subst i.
    apply list_elem_of_fmap in Hi as (r & Hr & Hin).
    apply largest_id_ge in Hin. lia.
  - apply Forall_app. split.
    + eapply Forall_impl; [exact Hrows|]. intros r (Hle & ?). split; [lia|done].
    + apply Forall_singleton. unfold row_ok, new_row. simpl.
      unfold not_null_violation in Hn.
      by destruct (p_student_name p), (p_subject p), (p_score p).
Qed.

Lemma inserted_seq p t : t_seq t < t_seq (inserted p t).
Proof. unfold inserted. simpl. lia. Qed.

Lemma wf_step s op : wf s -> wf (step s op).
Proof.
  intros (Hd & Hv & Hle). unfold wf.
  destruct (step_tables s op)
    as [[-> ->]|[[-> ->]|(p & _ & Hn & -> & [->| ->])]].
  - done.
  - split; [done|split; [done|lia]].
  - pose proof (inserted_seq p (view s)).
    split; [done|split; [by apply wf_table_inserted|lia]].
  - split; [|split; [|lia]]; by apply wf_table_inserted.
Qed.

Lemma wf_run ops s : wf s -> wf (run ops s).
Proof.
  revert s. induction ops as [|op ops IH]; intros s Hwf; [done|].
  apply IH. by apply wf_step.
Qed.

Lemma init_outcome file env :
  same_store (mkState (default empty_table file) None false env [])
             (__init__ file env).2.
Proof.
  unfold __init__, _create_table, execute_create_table, bind.
  set (s := mkState _ _ _ _ _).
  pose proof (storage_call_same s) as H1.
  destruct (storage_call s) as [[[]|e] s1]; [|done].
  unfold commit, bind.
  pose proof (storage_call_same s1) as H2.
  destruct (storage_call s1) as [[[]|e] s2]; simpl in *.
  - destruct H1 as (Hd1 & Ht1 & Hc1 & Ho1), H2 as (Hd2 & Ht2 & Hc2 & Ho2).
    unfold view. rewrite Ht2, Ht1, Hd2, Hd1, Hc2, Hc1, Ho2, Ho1. by repeat split.
  - by apply (same_store_trans s s1 s2).
Qed.

(** Opening a file keeps what the schema guarantees of its table. *)
Lemma wf_init_file file env :
  wf_table (default empty_table file) -> wf (__init__ file env).2.
Proof.
  intros Hwf. destruct (init_outcome file env) as (Hd & Ht & _).
  unfold wf, view. rewrite Ht, Hd. simpl.
  split; [done|split; [done|lia]].
Qed.

Lemma wf_init env : wf (__init__ None env).2.
Proof. apply wf_init_file. split; simpl; constructor. Qed.

(** ** Reading *)

Lemma execute_select_ready {A} (q : Table -> A) n s :
  ready (S n) s = true ->
  ∃ s', execute_select q s = (Returned (q (view s)), s') ∧
        same_store s s' ∧ ready n s' = true.
Proof.
  intros Hr. destruct (storage_call_ready n s Hr) as [Hcall Hr'].
  exists (set_faults (drop 1 (faults s)) s).
  unfold execute_select, bind. rewrite Hcall. by repeat split.
Qed.

#[global] Instance id_desc_trans : Transitive id_desc.
Proof. unfold id_desc. intros x y z ??. lia. Qed.

#[global] Instance id_desc_total : Total id_desc.
Proof. unfold id_desc. intros x y. lia. Qed.

Lemma order_by_id_desc_perm rows : order_by_id_desc rows ≡ₚ rows.
Proof. apply merge_sort_Permutation. Qed.

Lemma descending_strict rows :
  StronglySorted id_desc rows -> NoDup (id <$> rows) ->
  strictly_descending rows.
Proof.
  induction 1 as [|r rows Hs IH Hall]; intros Hnd; [constructor|].
  simpl in Hnd. apply NoDup_cons in Hnd as [Hnotin Hnd].
  constructor; [by apply IH|].
  apply Forall_forall. intros r' Hin.
  pose proof (proj1 (Forall_forall _ _) Hall r' Hin) as Hle.
  unfold id_desc in Hle.
  assert (id r' ≠ id r); [|lia].
  intros Heq. apply Hnotin. rewrite <-Heq. by apply list_elem_of_fmap_2.
Qed.

Lemma order_by_id_desc_strict rows :
  NoDup (id <$> rows) -> strictly_descending (order_by_id_desc rows).
Proof.
  intros Hnd. apply descending_strict.
  - apply (StronglySorted_merge_sort id_desc).
  - by rewrite (order_by_id_desc_perm rows).
Qed.


Lemma add_grade_true p s s' :
  add_grade p s = (Returned true, s') ->
  insert_ok p s = true ∧
  s' = mkState (inserted p (view s)) None false (drop 2 (faults s)) (stdout s).
Proof.
  intros Hadd. destruct (insert_ok p s) eqn:Hok.
  - rewrite add_grade_success in Hadd by done. split; congruence.
  - destruct (add_grade_failure p s Hok) as (e & s1 & Hf & _). congruence.
Qed.

Lemma get_all_grades_ready n s :
  ready (S n) s = true ->
  ∃ s', get_all_grades s = (Returned (order_by_id_desc (t_rows (view s))), s') ∧
        same_store s s' ∧ ready n s' = true.
Proof. apply (execute_select_ready select_all). Qed.

Lemma execute_query_ready {A} (q : Table -> outcome A) n s :
  ready (S n) s = true ->
  ∃ s', execute_query q s = (q (view s), s') ∧
        same_store s s' ∧ ready n s' = true.
Proof.
  intros Hr. destruct (storage_call_ready n s Hr) as [Hcall Hr'].
  exists (set_faults (drop 1 (faults s)) s).
  unfold execute_query, bind. rewrite Hcall. by repeat split.
Qed.

Lemma wf_table_ids_le t r : wf_table t -> r ∈ t_rows t -> id r <= t_seq t.
Proof.
  intros [_ Hrows] Hin. by destruct (proj1 (Forall_forall _ _) Hrows r Hin).
Qed.

(** ** Filtering *)

Lemma like_percent s : patternCompare "%" s = true.
Proof. induction s as [|c s IH]; simpl in *; [done|]. by rewrite IH. Qed.

Lemma like_percent_percent s : patternCompare "%%" s = true.
Proof.
  destruct s as [|c s]; [done|].
  change (patternCompare "%%" (String c s))
    with (patternCompare "%" (String c s) || patternCompare "%%" s).
  by rewrite like_percent.
Qed.

Lemma filter_all {A} (P : A -> Prop) `{!∀ x, Decision (P x)} (l : list A) :
  Forall P l -> filter P l = l.
Proof.
  induction 1 as [|x l Hx _ IH]; [done|]. by rewrite filter_cons_True, IH.
Qed.

Lemma NoDup_ids_filter (P : Row -> Prop) `{!∀ r, Decision (P r)} rows :
  NoDup (id <$> rows) -> NoDup (id <$> filter P rows).
Proof.
  intros Hnd. eapply sublist_NoDup; [exact Hnd|].
  apply fmap_sublist, sublist_filter.
Qed.

Lemma app_nil_l (b : string) : "" +:+ b = b.
Proof. reflexivity. Qed.

Lemma app_cons (c : ascii) (a b : string) :
  String c a +:+ b = String c (a +:+ b).
Proof. reflexivity. Qed.

Lemma casefold_app (a b : string) :
  casefold (a +:+ b) = casefold a +:+ casefold b.
Proof.
  induction a as [|x a IH]; [done|].
  rewrite app_cons. simpl. by rewrite IH, app_cons.
Qed.

(** A split of the folded text comes from a split of the text. *)
Lemma casefold_split (s a b : string) :
  casefold s = a +:+ b ->
  ∃ s1 s2, s = s1 +:+ s2 ∧ casefold s1 = a ∧ casefold s2 = b.
Proof.
  revert s. induction a as [|x a IH]; intros s Hs.
  - by exists "", s.
  - destruct s as [|c s]; [done|]. rewrite app_cons in Hs. simpl in Hs.
    injection Hs as Hc Hs.
    destruct (IH s Hs) as (s1 & s2 & -> & <- & <-).
    exists (String c s1), s2. simpl. by rewrite Hc.
Qed.

Lemma starts_with_spec (a b : string) :
  starts_with a b = true ↔ ∃ post, b = a +:+ post.
Proof.
  revert b. induction a as [|c a IH]; intros b; simpl.
  - split; [eauto|done].
  - destruct b as [|d b].
    + split; [done|]. by intros [post ?].
    + rewrite andb_true_iff, bool_decide_eq_true, IH. split.
      * intros [-> [post ->]]. eauto.
      * intros [post [= -> ->]]. eauto.
Qed.

Lemma contains_spec (a b : string) : contains a b = true ↔ infix_of a b.
Proof.
  unfold infix_of. induction b as [|d b IH]; simpl.
  - rewrite orb_false_r, starts_with_spec. split.
    + intros [post ->]. by exists "", post.
    + intros ([|c pre] & post & H); [eauto|done].
  - rewrite orb_true_iff, IH. split.
    + intros [[post H]%starts_with_spec|(pre & post & ->)].
      * exists "", post. by rewrite H.
      * by exists (String d pre), post.
    + intros ([|c pre] & post & H).
      * left. apply starts_with_spec. eauto.
      * right. rewrite app_cons in H. injection H as -> ->. eauto.
Qed.

(** A pattern that begins with a percent sign matches where its rest
    matches some tail of the text. *)
Lemma like_skip (pat s : string) :
  patternCompare (String "%" pat) s = true ↔ ∃ s1 s2, s = s1 +:+ s2 ∧ patternCompare pat s2 = true.
Proof.
  induction s as [|d s IH].
  - simpl. rewrite orb_false_r. split.
    + intros H. by exists "", "".
    + intros ([|c s1] & s2 & Hs & Hl); [|done].
      rewrite app_nil_l in Hs. by subst s2.
  - change (patternCompare (String "%" pat) (String d s))
      with (patternCompare pat (String d s) || patternCompare (String "%" pat) s).
    rewrite orb_true_iff, IH. split.
    + intros [H|(s1 & s2 & -> & H)].
      * by exists "", (String d s).
      * by exists (String d s1), s2.
    + intros ([|c s1] & s2 & Hs & Hl).
      * left. rewrite app_nil_l in Hs. by subst s2.
      * right. rewrite app_cons in Hs. injection Hs as -> ->. eauto.
Qed.

(** A term without wildcards, followed by a percent sign, matches the
    texts that begin with the term up to case. *)
Lemma like_term (term s : string) :
  no_wildcard term = true ->
  patternCompare (term +:+ "%") s = true ↔
  ∃ s1 s2, s = s1 +:+ s2 ∧ casefold s1 = casefold term.
Proof.
  revert s. induction term as [|c term IH]; intros s Hw.
  - rewrite app_nil_l, like_percent. split; [|done]. intros _. by exists "", s.
  - simpl in Hw. apply andb_prop in Hw as [[Hp Hu]%andb_prop Hw].
    apply negb_true_iff, bool_decide_eq_false in Hp, Hu.
    rewrite app_cons. simpl. rewrite !bool_decide_eq_false_2 by done. simpl.
    destruct s as [|d s].
    + split; [done|]. by intros ([|??] & ? & ? & ?).
    + rewrite andb_true_iff, (IH s Hw). unfold like_char.
      rewrite bool_decide_eq_true. split.
      * intros [Hcd (s1 & s2 & -> & Hf)]. exists (String d s1), s2.
        simpl. by rewrite Hf, Hcd.
      * intros ([|d' s1] & s2 & Hs & Hf); [done|].
        rewrite app_cons in Hs. simpl in Hf.
        injection Hs as -> ->. injection Hf as Hd Hf.
        split; [done|eauto].
Qed.

(** The pattern of [get_filtered_grades] for a term without wildcards is
    the infix test up to case. *)
Lemma like_contains (term s : string) :
  no_wildcard term = true ->
  patternCompare ("%" +:+ term +:+ "%") s = true ↔ infix_of (casefold term) (casefold s).
Proof.
  intros Hw. change ("%" +:+ term +:+ "%") with (String "%" (term +:+ "%")).
  rewrite like_skip. unfold infix_of. split.
  - intros (s1 & s2 & -> & (s3 & s4 & -> & Hf)%like_term); [|done].
    exists (casefold s1), (casefold s4). by rewrite !casefold_app, Hf.
  - intros (pre & post & Hs).
    destruct (casefold_split _ _ _ Hs) as (s1 & s2 & -> & _ & Hs2).
    destruct (casefold_split _ _ _ Hs2) as (s3 & s4 & -> & Hs3 & _).
    exists s1, (s3 +:+ s4). split; [done|]. apply like_term; eauto.
Qed.

(** ** The pattern as LIKE reads it *)

Lemma utf8_length_app (a b : string) :
  utf8_length (a +:+ b) = utf8_length a + utf8_length b.
Proof.
  induction a as [|c a IH]; [done|]. rewrite app_cons. simpl. rewrite IH. lia.
Qed.

Lemma search_pattern_length (term : string) :
  utf8_length ("%" +:+ term +:+ "%") = utf8_length term + 2.
Proof. rewrite !utf8_length_app. change (utf8_length "%") with 1. lia. Qed.

Lemma nul_free_app (a b : string) :
  nul_free (a +:+ b) = nul_free a && nul_free b.
Proof.
  induction a as [|c a IH]; [done|]. rewrite app_cons. simpl. rewrite IH.
  by rewrite andb_assoc.
Qed.

Lemma cstring_nul_free (s : string) : nul_free s = true -> cstring s = s.
Proof.
  induction s as [|c s IH]; [done|]. simpl.
  intros [Hc Hs]%andb_prop. apply negb_true_iff in Hc. rewrite Hc.
  by rewrite IH.
Qed.

Lemma cstring_search_pattern (term : string) :
  nul_free term = true ->
  cstring ("%" +:+ term +:+ "%") = "%" +:+ term +:+ "%".
Proof.
  intros Hn. apply cstring_nul_free. rewrite !nul_free_app, Hn. done.
Qed.

(** Within the limit LIKE selects the rows whose name matches; beyond it
    the first row already makes the statement fail. *)
Lemma where_like_fits pat rows :
  utf8_length pat <= max_like_pattern_length ->
  where_like pat rows
    = Returned (filter (fun r => row_matches (cstring pat) r = true) rows).
Proof.
  intros Hlen. induction rows as [|r rows IH]; [done|].
  cbn [where_like]. rewrite IH. unfold like.
  destruct (Z.ltb_spec max_like_pattern_length (utf8_length pat)); [lia|].
  unfold row_matches at 2.
  destruct (student_name r) as [name|] eqn:Hname.
  - destruct (patternCompare (cstring pat) (cstring name)) eqn:Hm.
    + rewrite filter_cons_True; [done|]. unfold row_matches. by rewrite Hname.
    + rewrite filter_cons_False; [done|]. unfold row_matches. rewrite Hname.
      congruence.
  - rewrite filter_cons_False; [done|]. unfold row_matches. by rewrite Hname.
Qed.

Lemma where_like_long pat r rows :
  max_like_pattern_length < utf8_length pat ->
  where_like pat (r :: rows)
    = Raised (OperationalError "LIKE or GLOB pattern too complex").
Proof.
  intros Hlen. cbn [where_like]. unfold like.
  by destruct (Z.ltb_spec max_like_pattern_length (utf8_length pat)); [|lia].
Qed.

Lemma select_like_fits pat t :
  utf8_length pat <= max_like_pattern_length ->
  select_like pat t
    = Returned (order_by_id_desc
                  (filter (fun r => row_matches (cstring pat) r = true) (t_rows t))).
Proof. intros Hlen. unfold select_like. by rewrite where_like_fits. Qed.

Lemma get_filtered_grades_ready term n s :
  ready (S n) s = true ->
  utf8_length term + 2 <= max_like_pattern_length ->
  ∃ s', get_filtered_grades term s =
          (Returned
             (order_by_id_desc
                (filter (fun r => row_matches (cstring ("%" +:+ term +:+ "%")) r = true)
                        (t_rows (view s)))), s') ∧
        same_store s s' ∧ ready n s' = true.
Proof.
  intros Hr Hlen.
  destruct (execute_query_ready (select_like ("%" +:+ term +:+ "%")) n s Hr)
    as (s' & Hget & Hsame & Hr').
  exists s'. split; [|done]. unfold get_filtered_grades. rewrite Hget.
  rewrite select_like_fits; [done|]. rewrite search_pattern_length. lia.
Qed.

Lemma get_filtered_grades_long term s :
  ready 1 s = true ->
  max_like_pattern_length < utf8_length term + 2 ->
  t_rows (view s) ≠ [] ->
  (get_filtered_grades term s).1
    = Raised (OperationalError "LIKE or GLOB pattern too complex").
Proof.
  intros Hr Hlen Hne.
  destruct (execute_query_ready (select_like ("%" +:+ term +:+ "%")) 0 s Hr)
    as (s' & Hget & _).
  unfold get_filtered_grades. rewrite Hget. unfold select_like.
  destruct (t_rows (view s)) as [|r rows]; [done|].
  rewrite where_like_long; [done|]. rewrite search_pattern_length. lia.
Qed.

(** ** Sorting and selecting *)

Lemma same_id_eq rows r1 r2 :
  NoDup (id <$> rows) -> r1 ∈ rows -> r2 ∈ rows -> id r1 = id r2 -> r1 = r2.
Proof.
  induction rows as [|r rows IH]; intros Hnd H1 H2 Hid.
  - by apply elem_of_nil in H1.
  - rewrite fmap_cons in Hnd. apply NoDup_cons in Hnd as [Hnotin Hnd].
    apply elem_of_cons in H1 as [->|H1], H2 as [->|H2]; try done.
    + exfalso. apply Hnotin. rewrite Hid. by apply list_elem_of_fmap_2.
    + exfalso. apply Hnotin. rewrite <-Hid. by apply list_elem_of_fmap_2.
    + by apply IH.
Qed.

(** Rows with different ids have one listing by id. *)
Lemma sorted_desc_unique l1 l2 :
  NoDup (id <$> l1) -> l1 ≡ₚ l2 ->
  StronglySorted id_desc l1 -> StronglySorted id_desc l2 -> l1 = l2.
Proof.
  intros Hnd Hperm Hs1 Hs2.
  apply (StronglySorted_unique_strong id_desc); try done.
  intros r1 r2 Hr1 Hr2 H12 H21. unfold id_desc in *.
  rewrite <-Hperm in Hr2. apply (same_id_eq l1); [done..|lia].
Qed.

Lemma StronglySorted_filter {A} (R : relation A) (P : A -> Prop)
    `{!∀ x, Decision (P x)} (l : list A) :
  StronglySorted R l -> StronglySorted R (filter P l).
Proof.
  induction 1 as [|x l _ IH Hall]; [constructor|].
  destruct (decide (P x)).
  - rewrite filter_cons_True by done. constructor; [done|].
    apply Forall_forall. intros y [_ Hy]%list_elem_of_filter.
    by apply (proj1 (Forall_forall _ _) Hall).
  - by rewrite filter_cons_False.
Qed.

(** Selecting before or after ORDER BY gives the same rows in the same
    order. *)
Lemma order_by_id_desc_filter (P : Row -> Prop) `{!∀ r, Decision (P r)} rows :
  NoDup (id <$> rows) ->
  order_by_id_desc (filter P rows) = filter P (order_by_id_desc rows).
Proof.
  intros Hnd. apply sorted_desc_unique.
  - rewrite (order_by_id_desc_perm (filter P rows)). by apply NoDup_ids_filter.
  - by rewrite !order_by_id_desc_perm.
  - apply (StronglySorted_merge_sort id_desc).
  - apply StronglySorted_filter, (StronglySorted_merge_sort id_desc).
Qed.

(** ** Aggregates *)

(** The accumulator of a group after a scan of the table. *)
Lemma foldl_group_step_lookup m rows k :
  foldl group_step m rows !! k =
    match filter (fun r => subject r = k) rows with
    | [] => m !! k
    | grp => Some (foldl avg_step (default (double_zero, 0) (m !! k)) (score <$> grp))
    end.
Proof.
  revert m. induction rows as [|r rows IH]; intros m; [done|].
  change (foldl group_step m (r :: rows))
    with (foldl group_step (group_step m r) rows).
  rewrite IH. unfold group_step.
  destruct (decide (subject r = k)) as [Heq|Hne].
  - rewrite filter_cons_True by done. rewrite Heq, lookup_insert_eq.
    by destruct (filter _ rows).
  - rewrite filter_cons_False by done. by rewrite lookup_insert_ne.
Qed.

Lemma group_by_subject_lookup rows k :
  group_by_subject rows !! k =
    match filter (fun r => subject r = k) rows with
    | [] => None
    | grp => Some (foldl avg_step (double_zero, 0) (score <$> grp))
    end.
Proof.
  unfold group_by_subject. rewrite foldl_group_step_lookup.
  by rewrite lookup_empty.
Qed.



(** A subject has a group exactly when some row has it. *)
Lemma group_by_subject_is_Some rows k :
  is_Some (group_by_subject rows !! k) ↔ ∃ r, r ∈ rows ∧ subject r = k.
Proof.
  rewrite group_by_subject_lookup. split.
  - intros Hs. destruct (filter _ rows) as [|r l] eqn:Hf; [by destruct Hs|].
    assert (r ∈ r :: l) as Hin by left. rewrite <-Hf in Hin.
    apply list_elem_of_filter in Hin as [? ?]. eauto.
  - intros (r & Hin & Hk). destruct (filter _ rows) as [|r' l] eqn:Hf; [|done].
    exfalso. eapply filter_nil_not_elem_of; [exact Hf|exact Hk|exact Hin].
Qed.

Lemma or_int_0 x : or_int x 0 = x.
Proof. unfold or_int. by destruct (Z.eqb_spec x 0). Qed.

#[global] Instance id_asc_trans : Transitive id_asc.
Proof. unfold id_asc. intros x y z ??. lia. Qed.

#[global] Instance id_asc_total : Total id_asc.
Proof. unfold id_asc. intros x y. lia. Qed.

(** The scan visits the rows of the table, each once. *)
Lemma table_scan_perm t : table_scan t ≡ₚ t_rows t.
Proof. apply merge_sort_Permutation. Qed.

(** The scan of a table whose rows stand in the order of their ids is
    the table. *)
Lemma table_scan_ascending t : ascending (t_rows t) -> table_scan t = t_rows t.
Proof.
  intros Hasc. unfold table_scan.
  assert (StronglySorted id_asc (t_rows t)) as Hs.
  { eapply StronglySorted_ind with (P := StronglySorted id_asc) in Hasc;
      [exact Hasc|constructor|].
    intros r rows _ IH Hall. constructor; [done|].
    eapply Forall_impl; [exact Hall|]. unfold id_asc. simpl. lia. }
  apply (StronglySorted_unique_strong id_asc).
  - intros r1 r2 Hr1 Hr2 H12 H21. unfold id_asc in *.
    rewrite merge_sort_Permutation in Hr1.
    assert (id r1 = id r2) as Hid by lia. clear H12 H21 Hs.
    induction Hasc as [|r rows _ IH Hall].
    + by apply elem_of_nil in Hr1.
    + apply elem_of_cons in Hr1 as [->|Hr1], Hr2 as [->|Hr2]; try done.
      * pose proof (proj1 (Forall_forall _ _) Hall r2 Hr2) as Hlt.
        simpl in Hlt. lia.
      * pose proof (proj1 (Forall_forall _ _) Hall r1 Hr1) as Hlt.
        simpl in Hlt. lia.
      * by apply IH.
  - apply (StronglySorted_merge_sort id_asc).
  - done.
  - apply merge_sort_Permutation.
Qed.

(** The values COUNT(DISTINCT ...) has seen: each once. *)
Lemma foldl_distinct_step seen xs :
  NoDup seen ->
  NoDup (foldl distinct_step seen xs) ∧
  ∀ v, v ∈ foldl distinct_step seen xs ↔ v ∈ seen ∨ Some v ∈ xs.
Proof.
  revert seen. induction xs as [|x xs IH]; intros seen Hnd.
  - simpl. split; [done|]. intros v. rewrite elem_of_nil. tauto.
  - change (foldl distinct_step seen (x :: xs))
      with (foldl distinct_step (distinct_step seen x) xs).
    assert (NoDup (distinct_step seen x)) as Hnd'.
    { destruct x as [v|]; simpl; [|done]. case_bool_decide; [done|].
      by apply NoDup_cons. }
    destruct (IH _ Hnd') as [IHnd IHin]. split; [done|].
    intros v. rewrite IHin, elem_of_cons.
    destruct x as [w|]; simpl.
    + case_bool_decide as Hw.
      * split; [tauto|]. intros [?|[[= ->]|?]]; tauto.
      * rewrite elem_of_cons. split.
        -- intros [[->|?]|?]; tauto.
        -- intros [?|[[= ->]|?]]; tauto.
    + split; [tauto|]. intros [?|[?|?]]; [tauto|done|tauto].
Qed.

Lemma count_distinct_names rows :
  count_distinct (student_name <$> rows) = Z.of_nat (size (names_of rows)).
Proof.
  unfold count_distinct, names_of. f_equal.
  destruct (foldl_distinct_step [] (student_name <$> rows)) as [Hnd Hin];
    [constructor|].
  rewrite <-(size_list_to_set (C:=gset string)) by done. f_equal.
  apply set_eq. intros v. rewrite !elem_of_list_to_set, Hin, elem_of_nil.
  rewrite list_elem_of_omap, list_elem_of_fmap. split.
  - intros [[]|(r & Hr & Hrin)]. eauto.
  - intros (r & Hrin & Hr). right. eauto.
Qed.

(** ** Properties of rows that every call keeps *)

Section rows_invariant.
Variable P : Row -> Prop.

Lemma rows_keep_step s op :
  inserts_keep P op -> rows_keep P s -> rows_keep P (step s op).
Proof.
  intros Hop [Hd Hv]. unfold rows_keep.
  assert (∀ p, op = OpAdd p -> Forall P (t_rows (inserted p (view s)))) as Hins.
  { intros p Hp. unfold inserted. simpl. apply Forall_app. split; [done|].
    apply Forall_singleton. by apply Hop. }
  destruct (step_tables s op)
    as [[-> ->]|[[-> ->]|(p & Hp & _ & -> & [->| ->])]]; auto.
Qed.

Lemma rows_keep_run ops s :
  Forall (inserts_keep P) ops -> rows_keep P s -> rows_keep P (run ops s).
Proof.
  intros Hops. revert s. induction Hops as [|op ops Hop _ IH]; intros s Hs;
    [done|].
  apply IH. by apply rows_keep_step.
Qed.
End rows_invariant.

Lemma init_tables env : disk (__init__ None env).2 = empty_table ∧
                        view (__init__ None env).2 = empty_table.
Proof.
  destruct (init_outcome None env) as (Hd & Ht & _).
  unfold view. by rewrite Ht, Hd.
Qed.

(** ** The order of insertion *)

Lemma ascending_snoc rows r :
  ascending rows -> Forall (fun r' => id r' < id r) rows ->
  ascending (rows ++ [r]).
Proof.
  intros Hs Hall. apply StronglySorted_app_2; [|done|repeat constructor].
  intros r1 r2 Hr1 ->%list_elem_of_singleton.
  by apply (proj1 (Forall_forall _ _) Hall).
Qed.

Lemma ascending_inserted p t :
  ascending (t_rows t) -> ascending (t_rows (inserted p t)).
Proof.
  intros Hs. unfold inserted. simpl. apply ascending_snoc; [done|].
  apply Forall_forall. intros r Hin. simpl.
  apply largest_id_ge in Hin. lia.
Qed.

Lemma ascending_prefix rows1 rows2 :
  rows1 `prefix_of` rows2 -> ascending rows2 -> ascending rows1.
Proof.
  intros [k ->] Hs. by apply StronglySorted_app_1_l in Hs.
Qed.

Lemma in_order_step s op : in_order s -> in_order (step s op).
Proof.
  intros [Hasc Hpre]. unfold in_order.
  destruct (step_tables s op)
    as [[-> ->]|[[-> ->]|(p & _ & _ & -> & [->| ->])]].
  - done.
  - split; [by apply (ascending_prefix _ _ Hpre)|done].
  - split; [by apply ascending_inserted|].
    etrans; [exact Hpre|]. unfold inserted. simpl. by apply prefix_app_r.
  - split; [by apply ascending_inserted|done].
Qed.

Lemma in_order_run ops s : in_order s -> in_order (run ops s).
Proof.
  revert s. induction ops as [|op ops IH]; intros s Hs; [done|].
  apply IH. by apply in_order_step.
Qed.

Lemma in_order_init env : in_order (__init__ None env).2.
Proof.
  destruct (init_tables env) as [Hd Hv]. unfold in_order.
  rewrite Hd, Hv. split; [constructor|done].
Qed.

(** The file only grows by one call. *)
Lemma disk_prefix_step s op :
  in_order s -> t_rows (disk s) `prefix_of` t_rows (disk (step s op)).
Proof.
  intros [_ Hpre].
  destruct (step_tables s op)
    as [[-> _]|[[-> _]|(p & _ & _ & _ & [->| ->])]]; try done.
  etrans; [exact Hpre|]. unfold inserted. simpl. by apply prefix_app_r.
Qed.

Lemma ascending_NoDup rows : ascending rows -> NoDup (id <$> rows).
Proof.
  induction 1 as [|r rows _ IH Hall]; simpl; constructor; [|done].
  intros (r' & Hid & Hin)%list_elem_of_fmap.
  pose proof (proj1 (Forall_forall _ _) Hall r' Hin) as Hlt.
  simpl in Hlt. lia.
Qed.

Lemma ascending_reverse rows :
  ascending rows -> StronglySorted id_desc (reverse rows).
Proof.
  induction 1 as [|r rows _ IH Hall].
  - constructor.
  - rewrite reverse_cons.
    apply StronglySorted_app_2; [|done|repeat constructor].
    intros r1 r2 Hr1 ->%list_elem_of_singleton.
    apply (proj1 (elem_of_reverse _ _)) in Hr1.
    pose proof (proj1 (Forall_forall _ _) Hall r1 Hr1) as Hlt.
    simpl in Hlt. unfold id_desc. lia.
Qed.

(** Sorting rows that stand in the order of insertion reverses them. *)
Lemma order_by_id_desc_ascending rows :
  ascending rows -> order_by_id_desc rows = reverse rows.
Proof.
  intros Hasc. apply (StronglySorted_unique_strong id_desc).
  - intros r1 r2 Hr1 Hr2 H12 H21. unfold id_desc in *.
    rewrite order_by_id_desc_perm in Hr1.
    apply (proj1 (elem_of_reverse _ _)) in Hr2.
    assert (id r1 = id r2) as Hid by lia.
    clear H12 H21. induction Hasc as [|r rows _ IH Hall].
    + by apply elem_of_nil in Hr1.
    + apply elem_of_cons in Hr1 as [->|Hr1], Hr2 as [->|Hr2]; try done.
      * pose proof (proj1 (Forall_forall _ _) Hall r2 Hr2) as Hlt.
        simpl in Hlt. lia.
      * pose proof (proj1 (Forall_forall _ _) Hall r1 Hr1) as Hlt.
        simpl in Hlt. lia.
      * by apply IH.
  - apply (StronglySorted_merge_sort id_desc).
  - by apply ascending_reverse.
  - by rewrite order_by_id_desc_perm, reverse_Permutation.
Qed.

(** ** Inserts one after the other *)

Lemma wf_largest_id t :
  wf_table t -> largest_id (t_rows t) <= Z.max 0 (t_seq t).
Proof.
  intros [_ Hrows].
  induction Hrows as [|r rows [Hle _] _ IH]; simpl; lia.
Qed.

Lemma wf_inserted_rows p t :
  wf_table t -> 0 <= t_seq t ->
  inserted p t = mkTable (t_rows t ++ [new_row (t_seq t + 1) p]) (t_seq t + 1).
Proof.
  intros Hwf Hpos. unfold inserted. pose proof (wf_largest_id t Hwf).
  by assert (Z.max (t_seq t) (largest_id (t_rows t)) = t_seq t) as -> by lia.
Qed.

Lemma insert_ok_healthy p s :
  wf s -> 0 <= t_seq (view s) -> closed s = false -> faults s = [] ->
  not_null_violation p = None -> t_seq (view s) < max_rowid ->
  insert_ok p s = true.
Proof.
  intros (_ & Hv & _) Hpos Hc Hf Hn Hlt.
  pose proof (wf_largest_id _ Hv).
  unfold insert_ok, ready, id_available. rewrite Hc, Hf.
  rewrite (bool_decide_eq_true_2 (not_null_violation p = None)) by done.
  rewrite bool_decide_eq_true_2 by lia. done.
Qed.

(** What the connection sees after a run of valid inserts on a healthy
    connection. *)
Lemma run_inserts ps s :
  wf s -> 0 <= t_seq (view s) -> closed s = false -> faults s = [] ->
  Forall (fun p => not_null_violation p = None) ps ->
  t_seq (view s) + Z.of_nat (length ps) < max_rowid ->
  view (run (OpAdd <$> ps) s)
    = mkTable (t_rows (view s) ++ appended (t_seq (view s)) ps)
              (t_seq (view s) + Z.of_nat (length ps)) ∧
  (ps ≠ [] -> txn (run (OpAdd <$> ps) s) = None).
Proof.
  intros Hwf Hpos Hc Hf Hps. revert s Hwf Hpos Hc Hf.
  induction Hps as [|p ps Hp Hps IH]; intros s Hwf Hpos Hc Hf Hlt.
  - simpl. rewrite app_nil_r, Z.add_0_r. split; [by destruct (view s)|done].
  - change (run (OpAdd <$> p :: ps) s)
      with (run (OpAdd <$> ps) (step s (OpAdd p))).
    cbn [length] in Hlt. rewrite Nat2Z.inj_succ in Hlt.
    pose proof (wf_step s (OpAdd p) Hwf) as Hwf1.
    assert (insert_ok p s = true) as Hok
      by (apply insert_ok_healthy; [done..|lia]).
    unfold step in *. rewrite (add_grade_success p s Hok) in *.
    cbn [snd] in *. rewrite Hf in *. cbn [drop] in *.
    set (s1 := mkState _ _ _ _ _) in *.
    assert (view s1 = inserted p (view s)) as Hv1 by done.
    destruct Hwf as (_ & Hv & _).
    rewrite (wf_inserted_rows p _ Hv Hpos) in Hv1.
    destruct (IH s1) as [IHv IHt]; rewrite ?Hv1; simpl; try done; try lia.
    split.
    + rewrite IHv, Hv1. simpl. rewrite <-app_assoc. simpl.
      f_equal. rewrite Nat2Z.inj_succ. lia.
    + intros _. destruct ps as [|p' ps']; [done|]. by apply IHt.
Qed.

(** ** Closing and opening again *)

Lemma reopen_store env s :
  disk (reopen env s).2 = disk s ∧ txn (reopen env s).2 = None ∧
  closed (reopen env s).2 = false.
Proof.
  unfold reopen.
  destruct (init_outcome (Some (disk (close s).2)) env) as (Hd & Ht & Hc & _).
  by rewrite Hd, Ht, Hc.
Qed.

Lemma step_closed s op :
  closed s = true -> disk (step s op) = disk s ∧ closed (step s op) = true.
Proof.
  intros Hc. destruct op as [p| |term| | |]; simpl;
    unfold get_all_grades, get_filtered_grades, get_average_grades_by_subject.
  - by rewrite add_grade_closed.
  - destruct (execute_select_same select_all s) as (? & _ & ? & _).
    split; congruence.
  - destruct (execute_query_same
                (select_like ("%" +:+ term +:+ "%")) s) as (? & _ & ? & _).
    split; congruence.
  - destruct (execute_select_same select_avg_by_subject s) as (? & _ & ? & _).
    split; congruence.
  - destruct (get_summary_stats_same s) as (? & _ & ? & _). split; congruence.
  - done.
Qed.

Lemma execute_select_closed {A} (q : Table -> A) s :
  closed s = true ->
  execute_select q s
    = (Raised (ProgrammingError "Cannot operate on a closed database."), s).
Proof.
  intros Hc. unfold execute_select, bind. by rewrite storage_call_closed.
Qed.

Lemma execute_query_closed {A} (q : Table -> outcome A) s :
  closed s = true ->
  execute_query q s
    = (Raised (ProgrammingError "Cannot operate on a closed database."), s).
Proof.
  intros Hc. unfold execute_query, bind. by rewrite storage_call_closed.
Qed.

(** ** LIKE and the case of letters *)

Lemma ascii_lower_idemp c : ascii_lower (ascii_lower c) = ascii_lower c.
Proof. by destruct c as [[] [] [] [] [] [] [] []]. Qed.

Lemma ascii_lower_percent c : ascii_lower c = "%"%char ↔ c = "%"%char.
Proof. destruct c as [[] [] [] [] [] [] [] []]; by vm_compute. Qed.

Lemma ascii_lower_underscore c : ascii_lower c = "_"%char ↔ c = "_"%char.
Proof. destruct c as [[] [] [] [] [] [] [] []]; by vm_compute. Qed.

Lemma append_assoc (a b c : string) : (a +:+ b) +:+ c = a +:+ b +:+ c.
Proof.
  induction a as [|x a IH]; [done|]. by rewrite !app_cons, IH.
Qed.

(** The pattern may be folded. *)
Lemma like_casefold_pattern pat s : patternCompare (casefold pat) s = patternCompare pat s.
Proof.
  revert s. induction pat as [|c pat IH]; intros s; [done|].
  cbn [casefold].
  destruct (decide (c = "%"%char)) as [->|Hc].
  - change (ascii_lower "%") with "%"%char. apply eq_true_iff_eq.
    rewrite !like_skip. by setoid_rewrite IH.
  - assert (ascii_lower c ≠ "%"%char) as Hc' by (by rewrite ascii_lower_percent).
    cbn [patternCompare].
    rewrite (bool_decide_eq_false_2 (c = "%"%char)) by done.
    rewrite (bool_decide_eq_false_2 (ascii_lower c = "%"%char)) by done.
    destruct s as [|d s]; cbn beta iota; [done|]. rewrite IH. f_equal. f_equal.
    + apply bool_decide_ext, ascii_lower_underscore.
    + unfold like_char. by rewrite ascii_lower_idemp.
Qed.

(** The text may be folded. *)
Lemma like_casefold_text pat s : patternCompare pat (casefold s) = patternCompare pat s.
Proof.
  revert s. induction pat as [|c pat IH]; intros s.
  - by destruct s.
  - destruct (decide (c = "%"%char)) as [->|Hc].
    + apply eq_true_iff_eq. rewrite !like_skip. split.
      * intros (s1 & s2 & Hs & Hl).
        destruct (casefold_split _ _ _ Hs) as (t1 & t2 & -> & _ & <-).
        exists t1, t2. by rewrite <-IH.
      * intros (s1 & s2 & -> & Hl). exists (casefold s1), (casefold s2).
        by rewrite casefold_app, IH.
    + cbn [patternCompare]. rewrite !bool_decide_eq_false_2 by done.
      destruct s as [|d s]; cbn [casefold]; cbn beta iota; [done|].
      rewrite IH. f_equal. f_equal. unfold like_char.
      by rewrite ascii_lower_idemp.
Qed.

(** A pattern followed by a percent sign matches the texts of which it
    matches a beginning. *)
Lemma like_then_percent pat s :
  patternCompare (pat +:+ "%") s = true ↔ ∃ s1 s2, s = s1 +:+ s2 ∧ patternCompare pat s1 = true.
Proof.
  revert s. induction pat as [|c pat IH]; intros s.
  - rewrite app_nil_l, like_percent. split; [|done]. intros _. by exists "", s.
  - rewrite app_cons. destruct (decide (c = "%"%char)) as [->|Hc].
    + rewrite like_skip. split.
      * intros (a & b & -> & (b1 & b2 & -> & Hl)%IH).
        exists (a +:+ b1), b2. split; [by rewrite append_assoc|].
        apply like_skip. eauto.
      * intros (s1 & s2 & -> & (a & b1 & -> & Hl)%like_skip).
        exists a, (b1 +:+ s2). split; [by rewrite append_assoc|].
        apply IH. eauto.
    + cbn [patternCompare]. rewrite !bool_decide_eq_false_2 by done.
      destruct s as [|d s]; cbn beta iota.
      * split; [done|]. intros ([|??] & ? & ? & ?); done.
      * rewrite andb_true_iff, IH. split.
        -- intros [Hcd (s1 & s2 & -> & Hl)]. exists (String d s1), s2.
           split; [done|]. by rewrite Hcd, Hl.
        -- intros ([|d' s1] & s2 & Hs & Hl); [done|].
           rewrite app_cons in Hs. injection Hs as -> ->.
           apply andb_true_iff in Hl as [Hcd Hl]. eauto.
Qed.

(** The pattern of [get_filtered_grades] matches the texts of which some
    run of consecutive characters matches the term. *)
Lemma like_search_pattern term s :
  patternCompare ("%" +:+ term +:+ "%") s = true ↔
  ∃ pre mid post, s = pre +:+ mid +:+ post ∧ patternCompare term mid = true.
Proof.
  change ("%" +:+ term +:+ "%") with (String "%" (term +:+ "%")).
  rewrite like_skip. split.
  - intros (pre & rest & -> & (mid & post & -> & Hl)%like_then_percent). eauto.
  - intros (pre & mid & post & -> & Hl). exists pre, (mid +:+ post).
    split; [done|]. apply like_then_percent. eauto.
Qed.

Lemma ascii_lower_nul c : ascii_lower c = "000"%char ↔ c = "000"%char.
Proof. destruct c as [[] [] [] [] [] [] [] []]; by vm_compute. Qed.

Lemma utf8_bytes_lower c : utf8_bytes (ascii_lower c) = utf8_bytes c.
Proof. by destruct c as [[] [] [] [] [] [] [] []]. Qed.

Lemma utf8_length_casefold s : utf8_length (casefold s) = utf8_length s.
Proof.
  induction s as [|c s IH]; [done|]. simpl. by rewrite utf8_bytes_lower, IH.
Qed.

Lemma cstring_casefold s : cstring (casefold s) = casefold (cstring s).
Proof.
  induction s as [|c s IH]; [done|]. simpl.
  rewrite (bool_decide_ext _ _ (ascii_lower_nul c)).
  case_bool_decide; [done|]. simpl. by rewrite IH.
Qed.

(** LIKE gives the same for a pattern and for the pattern folded. *)
Lemma like_casefold pat x : like (casefold pat) x = like pat x.
Proof.
  unfold like. rewrite utf8_length_casefold.
  destruct (max_like_pattern_length <? utf8_length pat); [done|].
  destruct x as [name|]; [|done].
  by rewrite cstring_casefold, like_casefold_pattern.
Qed.

Lemma where_like_casefold pat rows :
  where_like (casefold pat) rows = where_like pat rows.
Proof.
  induction rows as [|r rows IH]; [done|].
  cbn [where_like]. by rewrite like_casefold, IH.
Qed.

(** ** The number of distinct names *)

Lemma foldl_distinct_step_length seen xs :
  (length (foldl distinct_step seen xs) <= length seen + length xs)%nat.
Proof.
  revert seen. induction xs as [|x xs IH]; intros seen; simpl; [lia|].
  etrans; [apply IH|]. destruct x as [v|]; simpl; [|lia].
  case_bool_decide; simpl; lia.
Qed.

(** ** Inserts that succeed, one after the other *)

(** The rows that a run of successful inserts adds: one per insert, with
    the values of the insert, each id above all ids before it. *)
Lemma all_added_rows ps s :
  all_added ps s = true ->
  ∃ news,
    Forall2 (fun r p => r = new_row (id r) p) news ps ∧
    t_rows (view (run (OpAdd <$> ps) s)) = t_rows (view s) ++ news ∧
    ascending news ∧
    Forall (fun r => ∀ r', r' ∈ t_rows (view s) -> id r' < id r) news.
Proof.
  revert s. induction ps as [|p ps IH]; intros s Hall.
  - exists []. split; [constructor|]. split; [by rewrite app_nil_r|].
    split; constructor.
  - cbn [all_added] in Hall.
    destruct (add_grade p s) as [[[|]|e] s1] eqn:Hadd; try done.
    change (run (OpAdd <$> p :: ps) s)
      with (run (OpAdd <$> ps) (step s (OpAdd p))).
    unfold step. rewrite Hadd. cbn [snd].
    destruct (IH s1 Hall) as (news & Hnews & Hrows & Hasc & Habove).
    apply add_grade_true in Hadd as [_ Hs1].
    set (k := Z.max (t_seq (view s)) (largest_id (t_rows (view s)))).
    assert (t_rows (view s1) = t_rows (view s) ++ [new_row (k + 1) p]) as Hv1
      by (by rewrite Hs1).
    rewrite Hv1 in Hrows, Habove.
    exists (new_row (k + 1) p :: news).
    split; [by constructor|].
    split; [by rewrite Hrows, <-app_assoc|].
    split.
    + constructor; [done|]. eapply Forall_impl; [exact Habove|].
      intros r Hr. apply (Hr (new_row (k + 1) p)).
      apply elem_of_app. right. by apply list_elem_of_singleton.
    + constructor.
      * intros r' Hin. apply largest_id_ge in Hin. simpl. lia.
      * eapply Forall_impl; [exact Habove|].
        intros r Hr r' Hin. apply Hr. apply elem_of_app. by left.
Qed.

(** Rows added with higher ids come first in the listing, the last one
    added at the head. *)
Lemma order_by_id_desc_app_new old news :
  NoDup (id <$> old ++ news) -> ascending news ->
  Forall (fun r => ∀ r', r' ∈ old -> id r' < id r) news ->
  order_by_id_desc (old ++ news) = reverse news ++ order_by_id_desc old.
Proof.
  intros Hnd Hasc Habove. apply sorted_desc_unique.
  - by rewrite (order_by_id_desc_perm (old ++ news)).
  - rewrite !order_by_id_desc_perm, reverse_Permutation.
    apply Permutation_app_comm.
  - apply (StronglySorted_merge_sort id_desc).
  - apply StronglySorted_app_2.
    + intros r1 r2 Hr1 Hr2. apply (proj1 (elem_of_reverse _ _)) in Hr1.
      rewrite order_by_id_desc_perm in Hr2.
      pose proof (proj1 (Forall_forall _ _) Habove r1 Hr1 r2 Hr2).
      unfold id_desc. lia.
    + by apply ascending_reverse.
    + apply (StronglySorted_merge_sort id_desc).
Qed.

(** ** The window and the store *)

Lemma run_app ops1 ops2 s : run (ops1 ++ ops2) s = run ops2 (run ops1 s).
Proof. unfold run. by rewrite foldl_app. Qed.

Section window.
Variable float : string -> option double.
Variable format_1f : double -> string.
Variable P : Row -> Prop.

Lemma via_refl a a' : db a' = db a -> via P a a'.
Proof. intros Hdb. exists []. by split. Qed.

Lemma via_trans a1 a2 a3 : via P a1 a2 -> via P a2 a3 -> via P a1 a3.
Proof.
  intros (ops1 & H1 & Hk1) (ops2 & H2 & Hk2). exists (ops1 ++ ops2).
  split; [by rewrite run_app, <-H1|by apply Forall_app].
Qed.

Lemma via_abind {A B} (m : AppM A) (k : A -> AppM B) a :
  via P a (m a).2 -> (∀ x a1, via P a1 (k x a1).2) -> via P a (abind m k a).2.
Proof.
  intros Hm Hk. unfold abind. destruct (m a) as [[x|e] a1]; [|done].
  eapply via_trans; [exact Hm|apply Hk].
Qed.

Lemma via_read {A} (m : M A) op a :
  (∀ s, (m s).2 = step s op) -> (∀ p, op ≠ OpAdd p) ->
  via P a (call_db m a).2.
Proof.
  intros Hm Hop. exists [op]. split.
  - unfold call_db. specialize (Hm (db a)).
    by destruct (m (db a)) as [[x|e] s].
  - apply Forall_singleton. intros p k ->. by destruct (Hop p).
Qed.

Lemma via_update_kpi_cards a :
  via P a (PerformanceTrackerApp.update_kpi_cards format_1f a).2.
Proof.
  unfold PerformanceTrackerApp.update_kpi_cards. apply via_abind.
  - by apply (via_read get_summary_stats OpSummary).
  - intros x a1. by apply via_refl.
Qed.

Lemma via_insert_grades grades a :
  via P a (PerformanceTrackerApp.insert_grades format_1f grades a).2.
Proof.
  revert a. induction grades as [|r grades IH]; intros a; simpl.
  - by apply via_refl.
  - destruct (score r) as [q|]; [|by apply via_refl].
    apply via_abind; [by apply via_refl|]. intros _ a1. apply IH.
Qed.

Lemma via_load_grades term a :
  via P a (PerformanceTrackerApp.load_grades format_1f term a).2.
Proof.
  unfold PerformanceTrackerApp.load_grades.
  apply via_abind; [apply via_update_kpi_cards|]. intros _ a1.
  apply via_abind; [by apply via_refl|]. intros _ a2.
  apply via_abind; [|intros grades a3; apply via_insert_grades].
  case_bool_decide.
  - by apply (via_read get_all_grades OpAll).
  - by apply (via_read (get_filtered_grades term) (OpFiltered term)).
Qed.

Lemma via_generate_chart placeholder a :
  via P a (PerformanceTrackerApp.generate_chart placeholder a).2.
Proof.
  unfold PerformanceTrackerApp.generate_chart.
  apply via_abind; [by apply via_refl|]. intros _ a1.
  destruct placeholder; [by apply via_refl|].
  apply via_abind.
  - by apply (via_read get_average_grades_by_subject OpAverages).
  - intros [|x res] a2; [|by apply via_refl].
    apply via_abind; [by apply via_refl|]. intros _ a3.
    apply via_abind; [by apply via_refl|]. intros _ a4. by apply via_refl.
Qed.

End window.

Lemma in_range_value score :
  in_range score = true ->
  ∃ q, double_value score = Some q ∧ (0 <= q)%Q ∧ (q <= 100)%Q.
Proof.
  unfold in_range. destruct (double_value score) as [q|]; [|done].
  intros [H0 H100]%andb_prop. exists q.
  by rewrite <-!Qle_bool_iff.
Qed.

(** The guard of [add_grade]: what it lets through. *)
Lemma required_filled_dec a :
  bool_decide (strip (name_entry a) = "")
  || bool_decide (strip (class_entry a) = "")
  || bool_decide (strip (division_entry a) = "")
  || bool_decide (strip (subject_entry a) = "")
  || bool_decide (strip (score_entry a) = "") = false ↔ required_filled a.
Proof.
  unfold required_filled. rewrite !orb_false_iff, !bool_decide_eq_false.
  tauto.
Qed.

Lemma form_params_row a q k :
  required_filled a -> (0 <= q)%Q -> (q <= 100)%Q ->
  form_row (new_row k (form_params a q)).
Proof.
  intros (Hn & Hc & Hd & Hs & _) H0 H100. unfold form_row, nonempty. simpl.
  repeat split; eauto.
Qed.

Section window_store.
Variable float : string -> option double.
Variable format_1f : double -> string.

Lemma via_add_grade a :
  via form_row a (PerformanceTrackerApp.add_grade float format_1f a).2.
Proof.
  unfold PerformanceTrackerApp.add_grade.
  destruct (_ || _) eqn:Hreq; [by apply via_refl|].
  apply required_filled_dec in Hreq.
  destruct (float (strip (score_entry a))) as [score|]; [|by apply via_refl].
  destruct (in_range score) eqn:Hrange; simpl; [|by apply via_refl].
  apply in_range_value in Hrange as (q & Hq & H0 & H100). rewrite Hq.
  apply via_abind.
  - exists [OpAdd (form_params a q)]. split.
    + unfold call_db, form_params. simpl.
      by destruct (add_grade _ (db a)) as [[x|e] s].
    + apply Forall_singleton. intros p k [= <-]. by apply form_params_row.
  - intros [|] a1; [|by apply via_refl].
    apply via_abind; [by apply via_refl|]. intros _ a2.
    apply via_abind; [by apply via_refl|]. intros _ a3.
    apply via_abind; [apply via_load_grades|]. intros _ a4.
    apply via_generate_chart.
Qed.

Lemma via_handle a ev :
  via form_row a (PerformanceTrackerApp.handle float format_1f a ev).
Proof.
  unfold PerformanceTrackerApp.handle.
  destruct (destroyed a); [by apply via_refl|].
  destruct ev as [f text|text| | |].
  - by apply via_refl.
  - apply via_abind; [by apply via_refl|]. intros _ a1. apply via_load_grades.
  - apply via_add_grade.
  - apply via_generate_chart.
  - exists [OpClose]. split; [done|]. by apply Forall_singleton.
Qed.

Lemma via_mainloop evs a :
  via form_row a (PerformanceTrackerApp.mainloop float format_1f evs a).
Proof.
  revert a. induction evs as [|ev evs IH]; intros a; [by apply via_refl|].
  simpl. eapply via_trans; [apply via_handle|apply IH].
Qed.

Lemma via_init file env :
  ∃ ops, db (PerformanceTrackerApp.__init__ format_1f file env).2
         = run ops (__init__ file env).2 ∧
         Forall (inserts_keep form_row) ops.
Proof.
  unfold PerformanceTrackerApp.__init__.
  destruct (__init__ file env) as [[[]|e] s]; [|by exists []].
  set (a0 := mkApp s _ _ _ _ _ _ _ _ _ _ _ _ _ _ _).
  apply (via_abind form_row _ _ a0).
  - apply via_load_grades.
  - intros _ a1. apply via_generate_chart.
Qed.

End window_store.

(** ** What the methods leave alone *)

Lemma keeps_form_same a a' :
  same_form a a' -> search_term_var a' = search_term_var a ->
  dialogs a' = dialogs a -> destroyed a' = destroyed a -> keeps_form a a'.
Proof. intros ? ? Hd ?. unfold keeps_form. by rewrite Hd. Qed.

Lemma keeps_form_trans a1 a2 a3 :
  keeps_form a1 a2 -> keeps_form a2 a3 -> keeps_form a1 a3.
Proof.
  intros ((?&?&?&?&?&?&?) & ? & Hp1 & ?) ((?&?&?&?&?&?&?) & ? & Hp2 & ?).
  unfold keeps_form, same_form.
  split_and!; try congruence. by etrans.
Qed.

Lemma keeps_form_abind {A B} (m : AppM A) (k : A -> AppM B) a :
  keeps_form a (m a).2 -> (∀ x a1, keeps_form a1 (k x a1).2) ->
  keeps_form a (abind m k a).2.
Proof.
  intros Hm Hk. unfold abind. destruct (m a) as [[x|e] a1]; [|done].
  eapply keeps_form_trans; [exact Hm|apply Hk].
Qed.

Lemma keeps_form_call_db {A} (m : M A) a : keeps_form a (call_db m a).2.
Proof.
  unfold call_db. destruct (m (db a)) as [[x|e] s];
    by apply keeps_form_same.
Qed.

Lemma keeps_form_message d a : keeps_form a (message d a).2.
Proof.
  unfold keeps_form, same_form. simpl. split_and!; try done.
  by apply prefix_app_r.
Qed.

Section window_frame.
Variable format_1f : double -> string.

Lemma keeps_form_insert_grades grades a :
  keeps_form a (PerformanceTrackerApp.insert_grades format_1f grades a).2.
Proof.
  revert a. induction grades as [|r grades IH]; intros a; simpl.
  - by apply keeps_form_same.
  - destruct (score r) as [q|]; [|by apply keeps_form_same].
    apply keeps_form_abind; [by apply keeps_form_same|]. intros _ a1. apply IH.
Qed.

Lemma keeps_form_load_grades term a :
  keeps_form a (PerformanceTrackerApp.load_grades format_1f term a).2.
Proof.
  unfold PerformanceTrackerApp.load_grades,
    PerformanceTrackerApp.update_kpi_cards.
  apply keeps_form_abind.
  { apply keeps_form_abind; [apply keeps_form_call_db|].
    intros x a1. by apply keeps_form_same. }
  intros _ a1. apply keeps_form_abind; [by apply keeps_form_same|].
  intros _ a2. apply keeps_form_abind.
  - case_bool_decide; apply keeps_form_call_db.
  - intros grades a3. apply keeps_form_insert_grades.
Qed.

Lemma keeps_form_generate_chart placeholder a :
  keeps_form a (PerformanceTrackerApp.generate_chart placeholder a).2.
Proof.
  unfold PerformanceTrackerApp.generate_chart.
  apply keeps_form_abind; [by apply keeps_form_same|]. intros _ a1.
  destruct placeholder; [by apply keeps_form_same|].
  apply keeps_form_abind; [apply keeps_form_call_db|].
  intros [|x res] a2; [|by apply keeps_form_same].
  apply keeps_form_abind; [apply keeps_form_message|]. intros _ a3.
  apply keeps_form_abind; [by apply keeps_form_same|]. intros _ a4.
  by apply keeps_form_same.
Qed.

End window_frame.

(** [add_grade] of the window once the form is accepted. *)
Lemma add_grade_accepted float format_1f a score q :
  required_filled a -> float (strip (score_entry a)) = Some score ->
  in_range score = true -> double_value score = Some q ->
  PerformanceTrackerApp.add_grade float format_1f a =
    (app saved <- call_db (add_grade (form_params a q));
     if (saved : bool) then
       message (showinfo "Success"
                  ("Record for " +:+ strip (name_entry a) +:+ " added.")) >>
       clear_entries >>
       PerformanceTrackerApp.load_grades format_1f "" >>
       PerformanceTrackerApp.generate_chart false
     else
       message (showerror "Database Error" "Failed to save record.")) a.
Proof.
  intros Hreq%required_filled_dec Hfloat Hrange Hq.
  unfold PerformanceTrackerApp.add_grade.
  rewrite Hreq, Hfloat, Hrange, Hq. done.
Qed.

Lemma add_grade_saved float format_1f a score q s' :
  required_filled a -> float (strip (score_entry a)) = Some score ->
  in_range score = true -> double_value score = Some q ->
  add_grade (form_params a q) (db a) = (Returned true, s') ->
  PerformanceTrackerApp.add_grade float format_1f a =
    (PerformanceTrackerApp.load_grades format_1f "" >>
     PerformanceTrackerApp.generate_chart false) (saved_form s' a).
Proof.
  intros Hreq Hfloat Hrange Hq Hadd.
  rewrite (add_grade_accepted float format_1f a score q) by done.
  unfold abind at 1. unfold call_db at 1. rewrite Hadd.
  unfold abind at 1. unfold message at 1.
  unfold abind at 1. unfold clear_entries at 1. done.
Qed.


(** ** Loading the table and the cards *)

Lemma get_summary_stats_ready n s :
  ready (S (S n)) s = true ->
  ∃ s', get_summary_stats s = (Returned (summary_of (view s)), s') ∧
        same_store s s' ∧ ready n s' = true.
Proof.
  intros Hr.
  destruct (execute_select_ready
              (fun t => (count_id (t_rows t), sql_avg (score <$> table_scan t)))
              (S n) s Hr) as (s1 & Hget1 & Hsame1 & Hr1).
  destruct (execute_select_ready
              (fun t => count_distinct (student_name <$> t_rows t))
              n s1 Hr1) as (s2 & Hget2 & Hsame2 & Hr2).
  exists s2. split; [|split; [by apply (same_store_trans s s1 s2)|done]].
  unfold get_summary_stats. unfold bind at 1. rewrite Hget1.
  unfold bind at 1. rewrite Hget2. unfold ret, summary_of. simpl.
  by rewrite (same_store_view _ _ Hsame1).
Qed.

Lemma select_avg_by_subject_nil t :
  select_avg_by_subject t = [] ↔ t_rows t = [].
Proof.
  unfold select_avg_by_subject. pose proof (table_scan_perm t) as Hperm.
  rewrite map_to_list_empty_iff, fmap_empty_iff. split.
  - intros Hempty. destruct (table_scan t) as [|r rows] eqn:Hrs.
    + by apply Permutation_nil_l in Hperm.
    + assert (is_Some (group_by_subject (r :: rows) !! subject r)) as [acc Hacc].
      { apply group_by_subject_is_Some. exists r. split; [left|done]. }
      by rewrite Hempty, lookup_empty in Hacc.
  - intros Hnil. rewrite Hnil in Hperm. apply Permutation_nil_r in Hperm.
    by rewrite Hperm.
Qed.

Lemma summary_of_counts t :
  (summary_of t).1.1 = Z.of_nat (length (t_rows t)) ∧
  (summary_of t).2 = Z.of_nat (size (names_of (t_rows t))).
Proof.
  unfold summary_of. simpl. rewrite !or_int_0. split; [done|].
  apply count_distinct_names.
Qed.

Lemma summary_of_empty t : t_rows t = [] -> (summary_of t).1.2 = double_zero.
Proof.
  intros Hnil. unfold summary_of. cbn [fst snd].
  pose proof (table_scan_perm t) as Hperm. rewrite Hnil in Hperm.
  apply Permutation_nil_r in Hperm. by rewrite Hperm.
Qed.

Section window_load.
Variable format_1f : double -> string.

Lemma insert_grades_scored grades a :
  Forall (fun r => is_Some (score r)) grades ->
  PerformanceTrackerApp.insert_grades format_1f grades a
    = set_tree (tree a ++ (item_of format_1f <$> grades)) a.
Proof.
  intros Hall. revert a. induction Hall as [|r grades [q Hq] _ IH]; intros a.
  - simpl. unfold aret, set_tree. rewrite app_nil_r. by destruct a.
  - simpl. rewrite Hq. unfold abind, tree_insert. rewrite IH.
    unfold set_tree, item_of. simpl. rewrite Hq. simpl.
    by rewrite <-app_assoc.
Qed.

Lemma shown_scored term t :
  wf_table t ->
  Forall (fun r => is_Some (score r)) (shown term (order_by_id_desc (t_rows t))).
Proof.
  intros [_ Hrows]. apply Forall_forall. intros r Hin.
  assert (r ∈ t_rows t) as Hr.
  { unfold shown, matching in Hin. case_bool_decide.
    - by rewrite order_by_id_desc_perm in Hin.
    - apply list_elem_of_filter in Hin as [_ Hin].
      by rewrite order_by_id_desc_perm in Hin. }
  by destruct (proj1 (Forall_forall _ _) Hrows r Hr) as (_ & _ & _ & ?).
Qed.

(** [load_grades] when the store answers. *)
Lemma load_grades_ready term n a :
  wf (db a) -> ready (S (S (S n))) (db a) = true ->
  utf8_length term + 2 <= max_like_pattern_length ->
  ∃ s',
    PerformanceTrackerApp.load_grades format_1f term a =
      (Done tt,
       mkApp s' (name_entry a) (email_entry a) (class_entry a)
             (division_entry a) (roll_entry a) (subject_entry a)
             (score_entry a) (search_term_var a)
             (pretty (summary_of (view (db a))).1.1)
             (if is_positive (summary_of (view (db a))).1.2
              then format_1f (summary_of (view (db a))).1.2 +:+ " %"
              else "0.0 %")
             (pretty (summary_of (view (db a))).2)
             (item_of format_1f
                <$> shown term (order_by_id_desc (t_rows (view (db a)))))
             (chart a) (dialogs a) (destroyed a)) ∧
    same_store (db a) s' ∧ ready n s' = true.
Proof.
  intros (_ & Hwf & _) Hr Hlen.
  destruct (get_summary_stats_ready _ _ Hr) as (s1 & Hsum & Hsame1 & Hr1).
  assert (∃ s', (if bool_decide (term = "") then get_all_grades
                 else get_filtered_grades term) s1
                = (Returned (shown term (order_by_id_desc (t_rows (view (db a))))),
                   s') ∧
                same_store s1 s' ∧ ready n s' = true)
    as (s2 & Hlist & Hsame2 & Hr2).
  { unfold shown. rewrite <-(same_store_view _ _ Hsame1).
    case_bool_decide.
    - apply (get_all_grades_ready _ _ Hr1).
    - destruct (get_filtered_grades_ready term n s1 Hr1 Hlen)
        as (s2 & Hget & Hsame2 & Hr2).
      exists s2. split; [|done]. rewrite Hget. unfold matching.
      rewrite order_by_id_desc_filter; [done|].
      rewrite (same_store_view _ _ Hsame1). apply Hwf. }
  exists s2. split; [|split; [by apply (same_store_trans _ s1)|done]].
  unfold PerformanceTrackerApp.load_grades,
    PerformanceTrackerApp.update_kpi_cards.
  unfold abind at 1. unfold abind at 1. unfold call_db at 1. rewrite Hsum.
  unfold set_cards at 1. unfold abind at 1. unfold set_tree at 1.
  unfold abind at 1.
  assert (∀ a1, db a1 = s1 ->
            (if bool_decide (term = "") then call_db get_all_grades
             else call_db (get_filtered_grades term)) a1
            = (Done (shown term (order_by_id_desc (t_rows (view (db a))))),
               set_db s2 a1)) as Hcall.
  { intros a1 Hdb. unfold call_db.
    case_bool_decide; rewrite Hdb, Hlist; done. }
  rewrite Hcall by done.
  rewrite insert_grades_scored by (by apply shown_scored).
  done.
Qed.

End window_load.

Lemma ready_after_two n d t o s :
  ready (S (S n)) s = true ->
  ready n (mkState d t false (drop 2 (faults s)) o) = true.
Proof.
  unfold ready. simpl. intros [_ Hf]%andb_prop.
  destruct (faults s) as [|f1 [|f2 fs]]; simpl in *.
  - by rewrite take_nil.
  - by rewrite take_nil.
  - by apply andb_prop in Hf as [_ [_ ?]%andb_prop].
Qed.

(** [generate_chart] when the store answers. *)
Lemma generate_chart_ready n a :
  ready (S n) (db a) = true ->
  ∃ s',
    same_store (db a) s' ∧ ready n s' = true ∧
    PerformanceTrackerApp.generate_chart false a =
      (Done tt,
       match select_avg_by_subject (view (db a)) with
       | [] =>
           mkApp s' (name_entry a) (email_entry a) (class_entry a)
                 (division_entry a) (roll_entry a) (subject_entry a)
                 (score_entry a) (search_term_var a) (total_records_var a)
                 (overall_avg_var a) (unique_students_var a) (tree a)
                 Placeholder
                 (dialogs a ++
                  [showinfo "Chart Info"
                     "Not enough data. Add some grades first!"])
                 (destroyed a)
       | res =>
           mkApp s' (name_entry a) (email_entry a) (class_entry a)
                 (division_entry a) (roll_entry a) (subject_entry a)
                 (score_entry a) (search_term_var a) (total_records_var a)
                 (overall_avg_var a) (unique_students_var a) (tree a)
                 (Bars res.*1 res.*2) (dialogs a) (destroyed a)
       end).
Proof.
  intros Hr.
  destruct (execute_select_ready select_avg_by_subject n _ Hr)
    as (s' & Hget & Hsame & Hr').
  exists s'. split; [done|]. split; [done|].
  unfold PerformanceTrackerApp.generate_chart.
  unfold abind at 1. unfold set_chart at 1. cbn [negb].
  unfold abind at 1. unfold call_db at 1. cbn [db].
  unfold get_average_grades_by_subject. rewrite Hget.
  by destruct (select_avg_by_subject (view (db a))).
Qed.

Lemma select_avg_by_subject_subjects t :
  NoDup (select_avg_by_subject t).*1 ∧
  length (select_avg_by_subject t).*1 = length (select_avg_by_subject t).*2 ∧
  ∀ sj, Some sj ∈ (select_avg_by_subject t).*1 ↔
        ∃ r, r ∈ t_rows t ∧ subject r = Some sj.
Proof.
  unfold select_avg_by_subject. split; [apply NoDup_fst_map_to_list|].
  split; [by rewrite !length_fmap|].
  intros sj. setoid_rewrite <-(table_scan_perm t).
  rewrite <-group_by_subject_is_Some. split.
  - intros ([k m] & Hk & Hin)%list_elem_of_fmap. simpl in Hk. subst k.
    apply elem_of_map_to_list in Hin. rewrite lookup_fmap in Hin.
    by destruct (group_by_subject (table_scan t) !! Some sj).
  - intros [acc Hacc]. apply list_elem_of_fmap.
    exists (Some sj, avg_final acc). split; [done|].
    apply elem_of_map_to_list. by rewrite lookup_fmap, Hacc.
Qed.

Lemma shown_empty rows : shown "" rows = rows.
Proof. reflexivity. Qed.

(** ** The calls on small stores *)

Example fresh_is_empty :
  __init__ None [] = (Returned tt, fresh) ∧ disk fresh = empty_table.
Proof. by split. Qed.

Example three_ids : id <$> t_rows (disk three) = [1; 2; 3].
Proof. reflexivity. Qed.

Example get_all_grades_three :
  id <$> default [] (match (get_all_grades three).1 with
                     | Returned rows => Some rows
                     | Raised _ => None
                     end) = [3; 2; 1].
Proof. reflexivity. Qed.

Example like_underscore :
  like "%a_c%" (Some "xxAbCx") = Returned (Some true).
Proof. reflexivity. Qed.

Example like_no_match : like "%bob%" (Some "Alice") = Returned (Some false).
Proof. reflexivity. Qed.

(** LIKE does not see what follows a NUL character, in the text and in
    the pattern. *)
Example like_stops_at_nul :
  like "%b%" (Some (String "a" (String "000" "b"))) = Returned (Some false) ∧
  like (String "%" (String "a" (String "000" "zzz%"))) (Some "Anna")
    = Returned (Some true).
Proof. by split. Qed.

(** A search term of 49999 characters makes a pattern of 50001 bytes: the
    search raises when the table has a row, and returns nothing when it
    has none. *)
Example get_filtered_grades_long_term :
  (get_filtered_grades long_term three).1
    = Raised (OperationalError "LIKE or GLOB pattern too complex") ∧
  (get_filtered_grades long_term fresh).1 = Returned [].
Proof. split; by vm_compute. Qed.

(** The averages of Math [80, 90] and Art [70]. *)
Example averages_three :
  (get_average_grades_by_subject three).1
    = Returned [(Some "Math", Some (double_of_Q 85));
                (Some "Art", Some (double_of_Q 70))].
Proof. reflexivity. Qed.

(** "Math" and "math" are two subjects. *)
Example averages_two_spellings :
  (get_average_grades_by_subject two_spellings).1
    = Returned [(Some "math", Some (double_of_Q 40));
                (Some "Math", Some (double_of_Q 85));
                (Some "Art", Some (double_of_Q 70))].
Proof. reflexivity. Qed.

(** The average of 80, 90 and 95 is the double next to 265/3, which
    Python prints as 88.33333333333333. *)
Example averages_thirds :
  (get_average_grades_by_subject thirds).1
    = Returned [(Some "Math", Some (S754_finite false 6215905735693653 (-46)))].
Proof. reflexivity. Qed.

(** The average of the floats 0.1, 0.2 and 0.3 is the float that Python
    prints as 0.20000000000000004, not the float 0.2. *)
Example averages_tenths :
  (get_average_grades_by_subject tenths).1
    = Returned [(Some "Math", Some (S754_finite false 7205759403792795 (-55)))] ∧
  double_of_Q (2 # 10) = S754_finite false 7205759403792794 (-55).
Proof. by split. Qed.

(** The sum of two scores of 1.7e308 overflows: the average is infinite,
    in the summary as well. *)
Example averages_overflow :
  (get_average_grades_by_subject huge).1
    = Returned [(Some "Math", Some (S754_infinity false))] ∧
  (get_summary_stats huge).1 = Returned (2, S754_infinity false, 1).
Proof. split; by vm_compute. Qed.

(** Alice, Bob, Alice with 80, 60, 100. *)
Example summary_alice_bob_alice :
  (get_summary_stats alice_bob_alice).1 = Returned (3, double_of_Q 80, 2) ∧
  double_value (double_of_Q 80) = Some (5629499534213120 # 70368744177664) ∧
  (5629499534213120 # 70368744177664 == 80)%Q.
Proof. by split. Qed.

Example summary_fresh :
  (get_summary_stats fresh).1 = Returned (0, double_zero, 0).
Proof. reflexivity. Qed.

(** A missing name is refused by the table. *)
Example add_grade_without_name :
  (add_grade (mkParams None None None None None (Some "Math") (Some 1%Q)) three).1
    = Returned false ∧
  disk (add_grade (mkParams None None None None None (Some "Math") (Some 1%Q))
          three).2 = disk three.
Proof. by split. Qed.

(** The disk fails during the INSERT, or during the commit. *)
Example add_grade_disk_error :
  add_grade (grade "Carol" "Art" 55) failing_insert
    = (Returned false,
       mkState (disk three) None false []
         ["Database error while adding grade: disk I/O error"]).
Proof. reflexivity. Qed.

Example add_grade_commit_error :
  (add_grade (grade "Carol" "Art" 55) failing_commit).1 = Returned false ∧
  disk (add_grade (grade "Carol" "Art" 55) failing_commit).2 = disk three ∧
  txn (add_grade (grade "Carol" "Art" 55) failing_commit).2
    = Some (inserted (grade "Carol" "Art" 55) (disk three)).
Proof. by split. Qed.

(** A read on a closed store raises. *)
Example get_summary_stats_closed :
  (get_summary_stats (close three).2).1
    = Raised (ProgrammingError "Cannot operate on a closed database.").
Proof. reflexivity. Qed.

(** ** Inserting *)

(** C6: [add_grade] always returns a boolean and never raises.  When the
    INSERT or the commit raises, whatever the failure (closed connection,
    fault of the environment, full id space, NOT NULL violation), the
    result is [False], one line is printed and the file is unchanged; when
    both go through the result is [True]. *)
Theorem add_grade_reports_failure (p : Params) (s : State) :
  ∃ s', add_grade p s = (Returned (insert_ok p s), s') ∧
        match (execute_insert p ;; commit) s with
        | (Returned _, s1) => insert_ok p s = true ∧ s' = s1
        | (Raised e, s1) =>
            insert_ok p s = false ∧ disk s' = disk s ∧
            s' = (print (failure_line e) s1).2
        end.
Proof.
  destruct (insert_ok p s) eqn:Hok.
  - pose proof (add_grade_success p s Hok) as Hadd.
    eexists. split; [exact Hadd|].
    rewrite add_grade_calls in Hadd.
    destruct ((execute_insert p;; commit) s) as [[[]|e] s1]; [|done].
    by injection Hadd as <-.
  - destruct (add_grade_failure p s Hok) as (e & s' & Hadd & Hd & _).
    exists s'. split; [exact Hadd|].
    rewrite add_grade_calls in Hadd.
    destruct ((execute_insert p;; commit) s) as [[[]|e'] s1]; [done|].
    by injection Hadd as <-.
Qed.

(** C10: on a closed store [add_grade] returns [False]: the error of the
    closed connection is caught and printed, the call does not raise, and
    the file is as it was before [close]. *)
Theorem add_grade_after_close (p : Params) (s : State) :
  ∃ s', add_grade p (close s).2 = (Returned false, s') ∧
        disk s' = disk s ∧ txn s' = None ∧ closed s' = true ∧
        stdout s' =
          stdout s ++
          ["Database error while adding grade: Cannot operate on a closed database."].
Proof.
  eexists. split.
  - apply add_grade_closed. reflexivity.
  - simpl. by repeat split.
Qed.

(** C9: the store accepts every score.  On an open store with no fault
    pending and an id to give, a record with a name and a subject is
    inserted whatever rational its score is, and the file then holds the
    record with exactly that score. *)
Theorem add_grade_any_score (p : Params) (q : Q) (s : State) :
  ready 2 s = true -> id_available (view s) = true ->
  is_Some (p_student_name p) -> is_Some (p_subject p) -> p_score p = Some q ->
  ∃ s', add_grade p s = (Returned true, s') ∧
        new_row (t_seq (disk s')) p ∈ t_rows (disk s') ∧
        score (new_row (t_seq (disk s')) p) = Some q.
Proof.
  intros Hr Hk [n Hn] [sb Hsb] Hq.
  assert (insert_ok p s = true) as Hok.
  { unfold insert_ok. rewrite Hr, Hk. simpl. apply bool_decide_eq_true.
    unfold not_null_violation. by rewrite Hn, Hsb, Hq. }
  eexists. split; [by apply add_grade_success|]. simpl.
  split; [|done]. apply elem_of_app. right. by apply list_elem_of_singleton.
Qed.

Lemma add_grade_any_score_witness :
  ∃ s', add_grade (grade "Zed" "Math" (-250 # 1)) three = (Returned true, s') ∧
        new_row (t_seq (disk s')) (grade "Zed" "Math" (-250 # 1)) ∈ t_rows (disk s') ∧
        score (new_row (t_seq (disk s')) (grade "Zed" "Math" (-250 # 1)))
          = Some (-250 # 1)%Q.
Proof.
  apply (add_grade_any_score (grade "Zed" "Math" (-250 # 1)) (-250 # 1) three);
    try reflexivity; by eexists.
Defined.

(** C1: after a successful [add_grade], [get_all_grades] returns a row
    that carries the seven values as they were passed and an id that no
    row had before, neither in the file nor among the rows the connection
    saw; the rows seen before are returned as well. *)
Theorem add_grade_then_get_all (p : Params) (s s' : State) :
  wf s -> add_grade p s = (Returned true, s') -> ready 1 s' = true ->
  ∃ rows s'' r,
    get_all_grades s' = (Returned rows, s'') ∧ r ∈ rows ∧
    (id r ∉ id <$> t_rows (view s)) ∧ (id r ∉ id <$> t_rows (disk s)) ∧
    student_name r = p_student_name p ∧ email r = p_email p ∧
    class r = p_student_class p ∧ division r = p_division p ∧
    roll_number r = p_roll_number p ∧ subject r = p_subject p ∧
    score r = p_score p ∧
    ∀ r', r' ∈ t_rows (view s) -> r' ∈ rows.
Proof.
  intros (Hd & Hv & Hle) [Hok ->]%add_grade_true Hr.
  destruct (get_all_grades_ready 0 _ Hr) as (s'' & Hget & _).
  set (k := Z.max (t_seq (view s)) (largest_id (t_rows (view s)))).
  exists (order_by_id_desc (t_rows (view s) ++ [new_row (k + 1) p])), s'',
         (new_row (k + 1) p).
  split; [exact Hget|].
  split.
  { rewrite order_by_id_desc_perm. apply elem_of_app. right.
    by apply list_elem_of_singleton. }
  split.
  { intros (r & Hid & Hin)%list_elem_of_fmap. simpl in Hid.
    apply largest_id_ge in Hin. lia. }
  split.
  { intros (r & Hid & Hin)%list_elem_of_fmap. simpl in Hid.
    apply (wf_table_ids_le _ _ Hd) in Hin. lia. }
  repeat (split; [done|]).
  intros r' Hin. rewrite order_by_id_desc_perm. apply elem_of_app. by left.
Qed.

Lemma add_grade_then_get_all_witness :
  wf three ∧
  add_grade (grade "Carol" "Art" 55) three
    = (Returned true, run [OpAdd (grade "Carol" "Art" 55)] three) ∧
  ∃ rows s'' r,
    get_all_grades (run [OpAdd (grade "Carol" "Art" 55)] three)
      = (Returned rows, s'') ∧ r ∈ rows ∧
    (id r ∉ id <$> t_rows (view three)) ∧
    (id r ∉ id <$> t_rows (disk three)) ∧
    student_name r = Some "Carol" ∧ email r = Some "Carol@school.example" ∧
    class r = Some "10" ∧ division r = Some "A" ∧
    roll_number r = Some "7" ∧ subject r = Some "Art" ∧
    score r = Some 55%Q ∧
    ∀ r', r' ∈ t_rows (view three) -> r' ∈ rows.
Proof.
  assert (wf three) as Hwf by (apply wf_run, wf_init).
  split; [exact Hwf|]. split; [reflexivity|].
  apply (add_grade_then_get_all (grade "Carol" "Art" 55) three _ Hwf);
    reflexivity.
Defined.

(** ** Listing *)

(** C5 does not hold as stated: [get_filtered_grades] does not return a
    list for every search term.  After three successful inserts into a new
    store, the search for a term of 49999 characters raises: its pattern
    has 50001 bytes, more than LIKE accepts. *)
Lemma get_filtered_grades_too_long :
  all_added [grade "Alice" "Math" 80; grade "Bob" "Art" 70;
             grade "alice" "Math" 90] fresh = true ∧
  three = run (OpAdd <$> [grade "Alice" "Math" 80; grade "Bob" "Art" 70;
                          grade "alice" "Math" 90]) fresh ∧
  utf8_length ("%" +:+ long_term +:+ "%") = 50001 ∧
  (get_filtered_grades long_term three).1
    = Raised (OperationalError "LIKE or GLOB pattern too complex").
Proof. repeat split; by vm_compute. Qed.

(** C5, amended: after a sequence of inserts that all returned [True], on
    a well-formed store, [get_all_grades] returns the new rows, one per
    insert and with its values, the last inserted first, followed by the
    rows of the listing before the inserts; the ids strictly decrease along
    the list.  [get_filtered_grades] returns the rows of that listing whose
    student_name matches the pattern, in the order of the listing and so
    with strictly decreasing ids, when the pattern has at most 50000 bytes;
    with a longer pattern it raises, unless the table is empty. *)
Theorem listings_descend (ps : list Params) (term : string) (s0 : State) :
  wf s0 -> all_added ps s0 = true ->
  ready 1 (run (OpAdd <$> ps) s0) = true ->
  ∃ news rows s1 s2,
    Forall2 (fun r p => r = new_row (id r) p) news ps ∧
    get_all_grades (run (OpAdd <$> ps) s0) = (Returned rows, s1) ∧
    rows = reverse news ++ order_by_id_desc (t_rows (view s0)) ∧
    strictly_descending rows ∧
    get_filtered_grades term (run (OpAdd <$> ps) s0)
      = (if bool_decide (utf8_length term + 2 <= max_like_pattern_length)
         then Returned (matching term rows)
         else match rows with
              | [] => Returned []
              | _ :: _ =>
                  Raised (OperationalError "LIKE or GLOB pattern too complex")
              end, s2) ∧
    strictly_descending (matching term rows).
Proof.
  intros Hwf Hall Hr.
  destruct (all_added_rows ps s0 Hall) as (news & Hnews & Hrows & Hasc & Habove).
  pose proof (wf_run (OpAdd <$> ps) s0 Hwf) as (_ & [Hnd _] & _).
  set (s := run (OpAdd <$> ps) s0) in *.
  destruct (get_all_grades_ready 0 s Hr) as (s1 & Hget & _).
  destruct (execute_query_ready (select_like ("%" +:+ term +:+ "%")) 0 s Hr)
    as (s2 & Hfil & _).
  assert (strictly_descending (order_by_id_desc (t_rows (view s)))) as Hdesc
    by (by apply order_by_id_desc_strict).
  exists news, (order_by_id_desc (t_rows (view s))), s1, s2.
  split; [exact Hnews|]. split; [exact Hget|].
  split.
  { rewrite Hrows. apply order_by_id_desc_app_new; [by rewrite <-Hrows|done..]. }
  split; [exact Hdesc|].
  split; [|by apply StronglySorted_filter].
  unfold get_filtered_grades. rewrite Hfil. f_equal.
  case_bool_decide as Hlen.
  - rewrite select_like_fits by (rewrite search_pattern_length; lia).
    unfold matching. by rewrite order_by_id_desc_filter.
  - unfold select_like.
    destruct (t_rows (view s)) as [|r rows'] eqn:Hrs; [done|].
    rewrite where_like_long by (rewrite search_pattern_length; lia).
    destruct (order_by_id_desc (r :: rows')) as [|r1 l] eqn:Hsort; [|done].
    pose proof (order_by_id_desc_perm (r :: rows')) as Hperm.
    rewrite Hsort in Hperm. by apply Permutation_nil_l in Hperm.
Qed.

Lemma listings_descend_witness :
  wf fresh ∧
  ∃ news rows s1 s2,
    Forall2 (fun r p => r = new_row (id r) p) news
      [grade "Alice" "Math" 80; grade "Bob" "Art" 70; grade "alice" "Math" 90] ∧
    get_all_grades three = (Returned rows, s1) ∧
    rows = reverse news ++ order_by_id_desc (t_rows (view fresh)) ∧
    strictly_descending rows ∧
    get_filtered_grades "ali" three = (Returned (matching "ali" rows), s2) ∧
    strictly_descending (matching "ali" rows).
Proof.
  split; [apply wf_init|].
  apply (listings_descend
           [grade "Alice" "Math" 80; grade "Bob" "Art" 70;
            grade "alice" "Math" 90] "ali" fresh);
    [apply wf_init|reflexivity|reflexivity].
Defined.

(** C7: on a well-formed store [get_filtered_grades] with the empty
    string returns the same rows in the same order as [get_all_grades],
    and leaves the same state. *)
Theorem get_filtered_grades_empty (s : State) :
  wf s -> ready 1 s = true ->
  ∃ rows s',
    get_all_grades s = (Returned rows, s') ∧
    get_filtered_grades "" s = (Returned rows, s').
Proof.
  intros (_ & [_ Hrows] & _) Hr.
  destruct (storage_call_ready 0 s Hr) as [Hcall _].
  exists (order_by_id_desc (t_rows (view s))),
         (set_faults (drop 1 (faults s)) s).
  unfold get_all_grades, get_filtered_grades, execute_select, execute_query, bind.
  rewrite Hcall. split; [done|]. f_equal.
  change (view (set_faults (drop 1 (faults s)) s)) with (view s).
  rewrite select_like_fits by done. do 2 f_equal. apply filter_all.
  eapply Forall_impl; [exact Hrows|].
  intros r (_ & [n Hn] & _). unfold row_matches. rewrite Hn.
  apply like_percent_percent.
Qed.

Lemma get_filtered_grades_empty_witness :
  wf three ∧
  ∃ rows s',
    get_all_grades three = (Returned rows, s') ∧
    get_filtered_grades "" three = (Returned rows, s').
Proof.
  assert (wf three) as Hwf by (apply wf_run, wf_init).
  split; [exact Hwf|].
  apply (get_filtered_grades_empty three Hwf). reflexivity.
Defined.

(** ** Searching by name *)

(** C2: what the claim asks for, the infix test, is not what the code
    does for a search term with an underscore.  [get_filtered_grades]
    passes the term to LIKE unescaped, where an underscore stands for any
    one character: searching for "_" in a store that has a record of Bob
    returns that record, although "_" does not occur in "bob". *)
Theorem get_filtered_grades_wildcard :
  ∃ rows s' r,
    get_filtered_grades "_" three = (Returned rows, s') ∧
    r ∈ t_rows (view three) ∧ student_name r = Some "Bob" ∧
    r ∈ rows ∧ ¬ infix_of (casefold "_") (casefold "Bob").
Proof.
  eexists _, _, (new_row 2 (grade "Bob" "Art" 70)).
  split; [vm_compute; reflexivity|].
  split; [apply list_elem_of_further, list_elem_of_here|].
  split; [reflexivity|].
  split; [apply list_elem_of_further, list_elem_of_here|].
  intros H%contains_spec. discriminate H.
Qed.

(** ** Aggregates *)







(** ** The columns of the table *)

(** C8 does not hold as stated: the table takes a record without class
    and division.  On a new store the insert of such a record succeeds and
    the file then holds a row whose class and division are NULL. *)
Lemma null_class_persisted :
  __init__ None [] = (Returned tt, fresh) ∧
  add_grade eve fresh = (Returned true, with_eve) ∧
  ∃ r, r ∈ t_rows (disk with_eve) ∧ class r = None ∧ division r = None.
Proof.
  split; [reflexivity|]. split; [reflexivity|].
  exists (new_row 1 eve). split; [left|]. by split.
Qed.

(** C8, amended: in every store reached from a new database by any
    sequence of calls, every row of the file has a student_name, a subject
    and a score; it has a class and a division as well when every insert
    of the sequence passed them. *)
Theorem persisted_columns_present (env : list (option exn)) (ops : list Op)
    (s0 : State) (r : Row) :
  __init__ None env = (Returned tt, s0) ->
  r ∈ t_rows (disk (run ops s0)) ->
  is_Some (student_name r) ∧ is_Some (subject r) ∧ is_Some (score r) ∧
  (forallb with_class_division ops = true ->
   is_Some (class r) ∧ is_Some (division r)).
Proof.
  intros Hinit Hin.
  assert (s0 = (__init__ None env).2) as -> by (by rewrite Hinit).
  split_and!.
  - pose proof (wf_run ops _ (wf_init env)) as ([_ Hrows] & _).
    by destruct (proj1 (Forall_forall _ _) Hrows r Hin) as (_ & ? & _).
  - pose proof (wf_run ops _ (wf_init env)) as ([_ Hrows] & _).
    by destruct (proj1 (Forall_forall _ _) Hrows r Hin) as (_ & _ & ? & _).
  - pose proof (wf_run ops _ (wf_init env)) as ([_ Hrows] & _).
    by destruct (proj1 (Forall_forall _ _) Hrows r Hin) as (_ & _ & _ & ?).
  - intros Hops.
    destruct (rows_keep_run
                (fun r => is_Some (class r) ∧ is_Some (division r))
                ops (__init__ None env).2) as [Hd _].
    + apply Forall_forall. intros op Hop%list_elem_of_In p k ->.
      apply (proj1 (forallb_forall _ _) Hops) in Hop. simpl in *.
      destruct (p_student_class p), (p_division p); done.
    + unfold rows_keep. destruct (init_tables env) as [-> ->].
      split; constructor.
    + by apply (proj1 (Forall_forall _ _) Hd r).
Qed.

Lemma persisted_columns_present_witness :
  __init__ None [] = (Returned tt, fresh) ∧
  new_row 2 (grade "Bob" "Art" 70) ∈ t_rows (disk three) ∧
  is_Some (student_name (new_row 2 (grade "Bob" "Art" 70))) ∧
  is_Some (subject (new_row 2 (grade "Bob" "Art" 70))) ∧
  is_Some (score (new_row 2 (grade "Bob" "Art" 70))) ∧
  (forallb with_class_division
     [OpAdd (grade "Alice" "Math" 80); OpAdd (grade "Bob" "Art" 70);
      OpAdd (grade "alice" "Math" 90)] = true ->
   is_Some (class (new_row 2 (grade "Bob" "Art" 70))) ∧
   is_Some (division (new_row 2 (grade "Bob" "Art" 70)))).
Proof.
  split; [reflexivity|].
  split; [apply list_elem_of_further, list_elem_of_here|].
  apply (persisted_columns_present []
           [OpAdd (grade "Alice" "Math" 80); OpAdd (grade "Bob" "Art" 70);
            OpAdd (grade "alice" "Math" 90)] fresh);
    [reflexivity|apply list_elem_of_further, list_elem_of_here].
Defined.

(** ** More about the store *)

(** X1: the file is append-only.  From a new database, whatever calls are
    made, the rows the file held at any moment are still there, unchanged
    and in place, at every later moment: later rows only come after. *)
Theorem file_append_only (env : list (option exn)) (ops1 ops2 : list Op)
    (s0 : State) :
  __init__ None env = (Returned tt, s0) ->
  t_rows (disk (run ops1 s0)) `prefix_of` t_rows (disk (run (ops1 ++ ops2) s0)).
Proof.
  intros Hinit. assert (s0 = (__init__ None env).2) as -> by (by rewrite Hinit).
  unfold run. rewrite foldl_app. fold (run ops1 (__init__ None env).2).
  pose proof (in_order_run ops1 _ (in_order_init env)) as Hord.
  revert Hord. generalize (run ops1 (__init__ None env).2). clear.
  induction ops2 as [|op ops2 IH]; intros s Hord; [done|].
  simpl. etrans; [by apply (disk_prefix_step s op)|].
  apply IH. by apply in_order_step.
Qed.

Lemma file_append_only_witness :
  __init__ None [] = (Returned tt, fresh) ∧
  t_rows (disk (run [OpAdd (grade "Alice" "Math" 80)] fresh))
    `prefix_of`
  t_rows (disk (run ([OpAdd (grade "Alice" "Math" 80)] ++
                     [OpAdd eve; OpClose; OpAll]) fresh)).
Proof.
  split; [reflexivity|].
  apply (file_append_only [] [OpAdd (grade "Alice" "Math" 80)]
           [OpAdd eve; OpClose; OpAll] fresh).
  reflexivity.
Defined.

(** X2: most recent first.  In a store reached from a new database
    [get_all_grades] returns the rows in the reverse of the order in which
    they were inserted. *)
Theorem get_all_grades_newest_first (env : list (option exn)) (ops : list Op)
    (s0 : State) :
  __init__ None env = (Returned tt, s0) -> ready 1 (run ops s0) = true ->
  ∃ s', get_all_grades (run ops s0)
        = (Returned (reverse (t_rows (view (run ops s0)))), s').
Proof.
  intros Hinit Hr. assert (s0 = (__init__ None env).2) as -> by (by rewrite Hinit).
  destruct (in_order_run ops _ (in_order_init env)) as [Hasc _].
  destruct (get_all_grades_ready 0 _ Hr) as (s' & Hget & _).
  exists s'. by rewrite Hget, order_by_id_desc_ascending.
Qed.

Lemma get_all_grades_newest_first_witness :
  __init__ None [] = (Returned tt, fresh) ∧
  ∃ s', get_all_grades three = (Returned (reverse (t_rows (view three))), s').
Proof.
  split; [reflexivity|].
  apply (get_all_grades_newest_first []
           [OpAdd (grade "Alice" "Math" 80); OpAdd (grade "Bob" "Art" 70);
            OpAdd (grade "alice" "Math" 90)] fresh); reflexivity.
Defined.

(** X3: consecutive ids.  On a well-formed, open store whose environment
    raises no fault, a run of inserts that all carry a name, a subject and
    a score appends one row per insert to the file, in the order of the
    calls, with the ids that follow the counter one by one. *)
Theorem inserts_get_consecutive_ids (p : Params) (ps : list Params) (s : State) :
  wf s -> 0 <= t_seq (view s) -> closed s = false -> faults s = [] ->
  Forall (fun p => not_null_violation p = None) (p :: ps) ->
  t_seq (view s) + Z.of_nat (length (p :: ps)) < max_rowid ->
  t_rows (disk (run (OpAdd <$> p :: ps) s))
    = t_rows (view s) ++ appended (t_seq (view s)) (p :: ps).
Proof.
  intros Hwf Hpos Hc Hf Hps Hlt.
  destruct (run_inserts (p :: ps) s Hwf Hpos Hc Hf Hps Hlt) as [Hv Ht].
  set (s' := run (OpAdd <$> p :: ps) s) in *.
  assert (view s' = disk s') as Hvd by (unfold view; by rewrite Ht).
  by rewrite <-Hvd, Hv.
Qed.

Lemma inserts_get_consecutive_ids_witness :
  wf fresh ∧
  t_rows (disk (run (OpAdd <$> [grade "Alice" "Math" 80; grade "Bob" "Art" 70])
                  fresh))
    = t_rows (view fresh)
      ++ appended (t_seq (view fresh))
           [grade "Alice" "Math" 80; grade "Bob" "Art" 70].
Proof.
  split; [apply wf_init|].
  apply (inserts_get_consecutive_ids (grade "Alice" "Math" 80)
           [grade "Bob" "Art" 70] fresh);
    [apply wf_init|done|done|done|by repeat constructor|done].
Defined.

(** X4: what is committed survives.  After a successful [add_grade], when
    the store is closed and its file opened again, [get_all_grades]
    returns the same rows as before closing, the new record among them. *)
Theorem committed_survives_reopen (p : Params) (env : list (option exn))
    (s s1 s2 : State) :
  add_grade p s = (Returned true, s1) -> ready 1 s1 = true ->
  reopen env s1 = (Returned tt, s2) -> ready 1 s2 = true ->
  ∃ rows s1' s2',
    get_all_grades s1 = (Returned rows, s1') ∧
    get_all_grades s2 = (Returned rows, s2') ∧
    new_row (t_seq (disk s1)) p ∈ rows.
Proof.
  intros [Hok ->]%add_grade_true Hr1 Hre Hr2.
  destruct (reopen_store env
              (mkState (inserted p (view s)) None false (drop 2 (faults s))
                       (stdout s))) as (Hd & Ht & _).
  rewrite Hre in Hd, Ht. simpl in Hd, Ht.
  destruct (get_all_grades_ready 0 _ Hr1) as (s1' & Hget1 & _).
  destruct (get_all_grades_ready 0 _ Hr2) as (s2' & Hget2 & _).
  eexists _, s1', s2'. split; [exact Hget1|]. split.
  - rewrite Hget2. unfold view. by rewrite Ht, Hd.
  - rewrite order_by_id_desc_perm. simpl. apply elem_of_app. right.
    by apply list_elem_of_singleton.
Qed.

Lemma committed_survives_reopen_witness :
  add_grade (grade "Carol" "Art" 55) three
    = (Returned true, run [OpAdd (grade "Carol" "Art" 55)] three) ∧
  ∃ rows s1' s2',
    get_all_grades (run [OpAdd (grade "Carol" "Art" 55)] three)
      = (Returned rows, s1') ∧
    get_all_grades (reopen [] (run [OpAdd (grade "Carol" "Art" 55)] three)).2
      = (Returned rows, s2') ∧
    new_row (t_seq (disk (run [OpAdd (grade "Carol" "Art" 55)] three)))
            (grade "Carol" "Art" 55) ∈ rows.
Proof.
  split; [reflexivity|].
  apply (committed_survives_reopen (grade "Carol" "Art" 55) [] three);
    reflexivity.
Defined.

(** X5: a closed store is frozen.  Once the connection is closed, no
    sequence of calls writes to the file or opens the connection again, and
    every read raises the error of the closed database. *)
Theorem closed_store_is_frozen (ops : list Op) (term : string) (s : State) :
  closed s = true ->
  disk (run ops s) = disk s ∧ closed (run ops s) = true ∧
  (get_all_grades (run ops s)).1
    = Raised (ProgrammingError "Cannot operate on a closed database.") ∧
  (get_filtered_grades term (run ops s)).1
    = Raised (ProgrammingError "Cannot operate on a closed database.") ∧
  (get_average_grades_by_subject (run ops s)).1
    = Raised (ProgrammingError "Cannot operate on a closed database.") ∧
  (get_summary_stats (run ops s)).1
    = Raised (ProgrammingError "Cannot operate on a closed database.").
Proof.
  intros Hc.
  assert (disk (run ops s) = disk s ∧ closed (run ops s) = true) as [Hd Hc'].
  { revert s Hc. induction ops as [|op ops IH]; intros s Hc; [done|].
    simpl. destruct (step_closed s op Hc) as [Hd1 Hc1].
    destruct (IH _ Hc1) as [Hd2 Hc2]. split; congruence. }
  split; [done|]. split; [done|].
  unfold get_all_grades, get_filtered_grades, get_average_grades_by_subject,
    get_summary_stats.
  unfold bind at 1.
  rewrite !execute_select_closed, execute_query_closed by done. done.
Qed.

Lemma closed_store_is_frozen_witness :
  closed (close three).2 = true ∧
  disk (run [OpAdd eve; OpAll] (close three).2) = disk (close three).2.
Proof.
  split; [reflexivity|].
  apply (closed_store_is_frozen [OpAdd eve; OpAll] "a" (close three).2).
  reflexivity.
Defined.

(** X6: a record without a name, a subject or a score is refused.  On an
    open store with an id to give, [add_grade] returns [False], prints the
    line that names the first missing column, and neither the file nor the
    rows the connection sees change. *)
Theorem add_grade_missing_column (p : Params) (col : string) (s : State) :
  not_null_violation p = Some col ->
  ready 1 s = true -> id_available (view s) = true ->
  ∃ s', add_grade p s = (Returned false, s') ∧
        disk s' = disk s ∧ view s' = view s ∧
        stdout s' =
          stdout s ++
          ["Database error while adding grade: NOT NULL constraint failed: grades."
           +:+ col].
Proof.
  intros Hn Hr Hk. rewrite add_grade_calls. unfold bind at 1.
  rewrite execute_insert_ready by done.
  unfold insert_into. apply bool_decide_eq_true in Hk.
  destruct (Z.leb_spec max_rowid
              (Z.max (t_seq (view s)) (largest_id (t_rows (view s)))));
    [lia|].
  rewrite Hn. cbv zeta. eexists. split; [reflexivity|]. by repeat split.
Qed.

Lemma add_grade_missing_column_witness :
  ∃ s', add_grade (mkParams (Some "Eve") None None None None None (Some 1%Q))
          three = (Returned false, s') ∧
        disk s' = disk three ∧ view s' = view three ∧
        stdout s' =
          stdout three ++
          ["Database error while adding grade: NOT NULL constraint failed: grades."
           +:+ "subject"].
Proof.
  apply (add_grade_missing_column
           (mkParams (Some "Eve") None None None None None (Some 1%Q))
           "subject" three); reflexivity.
Defined.

(** ** More about searching *)

(** X7: the search ignores the case of ASCII letters on both sides.
    [get_filtered_grades] gives the same result, or the same error, for a
    term and for the term folded to lower case, and LIKE gives the same for
    a name and for the name folded to lower case. *)
Theorem search_ignores_case (term : string) (s : State) :
  get_filtered_grades (casefold term) s = get_filtered_grades term s ∧
  ∀ name, like ("%" +:+ term +:+ "%") (Some (casefold name))
          = like ("%" +:+ term +:+ "%") (Some name).
Proof.
  split.
  - unfold get_filtered_grades, execute_query, bind.
    destruct (storage_call s) as [[[]|e] s1]; [|done]. f_equal.
    unfold select_like.
    change ("%" +:+ casefold term +:+ "%")
      with (casefold "%" +:+ casefold term +:+ casefold "%").
    by rewrite <-!casefold_app, where_like_casefold.
  - intros name. unfold like.
    destruct (max_like_pattern_length <? _); [done|].
    by rewrite cstring_casefold, like_casefold_text.
Qed.

(** X8: what a search term selects, wildcards included.  For a term
    without NUL character whose pattern has at most 50000 bytes, a row is
    returned by [get_filtered_grades] exactly when it is in the table and
    some run of consecutive characters of its student_name, read up to the
    first NUL character, matches the term as a LIKE pattern. *)
Theorem get_filtered_grades_pattern (term : string) (s : State) :
  ready 1 s = true -> nul_free term = true ->
  utf8_length term + 2 <= max_like_pattern_length ->
  ∃ rows s',
    get_filtered_grades term s = (Returned rows, s') ∧
    ∀ r, r ∈ rows ↔
         r ∈ t_rows (view s) ∧
         ∃ name pre mid post,
           student_name r = Some name ∧ cstring name = pre +:+ mid +:+ post ∧
           patternCompare term mid = true.
Proof.
  intros Hr Hnul Hlen.
  destruct (get_filtered_grades_ready term 0 s Hr Hlen) as (s' & Hget & _).
  eexists _, s'. split; [exact Hget|].
  intros r. rewrite order_by_id_desc_perm, list_elem_of_filter.
  rewrite cstring_search_pattern by done. unfold row_matches. split.
  - intros [Hlike Hin]. split; [done|].
    destruct (student_name r) as [name|]; [|done].
    apply like_search_pattern in Hlike as (pre & mid & post & Hname & Hl).
    eauto 10.
  - intros [Hin (name & pre & mid & post & Hname & Hc & Hl)]. split; [|done].
    rewrite Hname. apply like_search_pattern. eauto.
Qed.

Lemma get_filtered_grades_pattern_witness :
  ∃ rows s',
    get_filtered_grades "a_i" three = (Returned rows, s') ∧
    ∀ r, r ∈ rows ↔
         r ∈ t_rows (view three) ∧
         ∃ name pre mid post,
           student_name r = Some name ∧ cstring name = pre +:+ mid +:+ post ∧
           patternCompare "a_i" mid = true.
Proof.
  apply (get_filtered_grades_pattern "a_i" three); [reflexivity..|].
  vm_compute. discriminate.
Defined.

(** X9: the infix test, where it holds.  For a search term with no
    percent sign, no underscore and no NUL character, whose pattern has at
    most 50000 bytes, [get_filtered_grades] returns exactly the rows of the
    table whose student_name, read up to its first NUL character, contains
    the term, both folded on the letters of ASCII. *)
Theorem get_filtered_grades_infix (term : string) (s : State) :
  ready 1 s = true -> no_wildcard term = true -> nul_free term = true ->
  utf8_length term + 2 <= max_like_pattern_length ->
  ∃ rows s',
    get_filtered_grades term s = (Returned rows, s') ∧
    ∀ r, r ∈ rows ↔
         r ∈ t_rows (view s) ∧
         ∃ name, student_name r = Some name ∧
                 infix_of (casefold term) (casefold (cstring name)).
Proof.
  intros Hr Hw Hnul Hlen.
  destruct (get_filtered_grades_ready term 0 s Hr Hlen) as (s' & Hget & _).
  eexists _, s'. split; [exact Hget|].
  intros r. rewrite order_by_id_desc_perm, list_elem_of_filter.
  rewrite cstring_search_pattern by done. unfold row_matches. split.
  - intros [Hlike Hin]. split; [done|].
    destruct (student_name r) as [name|]; [|done].
    exists name. split; [done|]. by apply like_contains.
  - intros [Hin (name & Hname & Hinf)]. split; [|done].
    rewrite Hname. by apply like_contains.
Qed.

Lemma get_filtered_grades_infix_witness :
  ∃ rows s',
    get_filtered_grades "LIC" three = (Returned rows, s') ∧
    ∀ r, r ∈ rows ↔
         r ∈ t_rows (view three) ∧
         ∃ name, student_name r = Some name ∧
                 infix_of (casefold "LIC") (casefold (cstring name)).
Proof.
  apply (get_filtered_grades_infix "LIC" three); [reflexivity..|].
  vm_compute. discriminate.
Defined.

(** X10: the limit of LIKE.  On an open store whose table has a row, a
    search term that makes a pattern of more than 50000 bytes raises the
    error of LIKE, and the call changes neither tables nor output. *)
Theorem get_filtered_grades_limit (term : string) (s : State) :
  ready 1 s = true -> t_rows (view s) ≠ [] ->
  max_like_pattern_length < utf8_length term + 2 ->
  ∃ s', get_filtered_grades term s
          = (Raised (OperationalError "LIKE or GLOB pattern too complex"), s') ∧
        same_store s s'.
Proof.
  intros Hr Hne Hlen.
  pose proof (get_filtered_grades_long term s Hr Hlen Hne) as Hraise.
  pose proof (execute_query_same (select_like ("%" +:+ term +:+ "%")) s) as Hsame.
  fold (get_filtered_grades term) in Hsame.
  destruct (get_filtered_grades term s) as [o s']. simpl in *. subst o.
  by exists s'.
Qed.

Lemma get_filtered_grades_limit_witness :
  ∃ s', get_filtered_grades long_term three
          = (Raised (OperationalError "LIKE or GLOB pattern too complex"), s') ∧
        same_store three s'.
Proof.
  apply (get_filtered_grades_limit long_term three); [reflexivity|done|].
  by vm_compute.
Defined.

(** ** More about the aggregates *)

(** X11: the summary counts are consistent.  The number of distinct
    students that [get_summary_stats] returns is never more than the number
    of records, and it is 0 only when there is no record. *)
Theorem summary_consistent (s : State) :
  wf s -> ready 2 s = true ->
  ∃ n m u s',
    get_summary_stats s = (Returned (n, m, u), s') ∧
    0 <= u <= n ∧ (u = 0 ↔ n = 0).
Proof.
  intros (_ & [_ Hrows] & _) Hr.
  destruct (execute_select_ready
              (fun t => (count_id (t_rows t), sql_avg (score <$> table_scan t)))
              1 s Hr) as (s1 & Hget1 & Hsame & Hr1).
  destruct (execute_select_ready
              (fun t => count_distinct (student_name <$> t_rows t))
              0 s1 Hr1) as (s2 & Hget2 & _).
  apply same_store_view in Hsame.
  eexists _, _, _, s2. split.
  { unfold get_summary_stats. unfold bind at 1. rewrite Hget1.
    unfold bind at 1. rewrite Hget2. reflexivity. }
  cbn [fst snd]. rewrite Hsame, !or_int_0.
  set (rows := t_rows (view s)) in *.
  unfold count_id, count_distinct.
  pose proof (foldl_distinct_step_length [] (student_name <$> rows)) as Hlen.
  rewrite length_fmap in Hlen. simpl in Hlen.
  split; [lia|]. split.
  - intros Hu. destruct rows as [|r rows'] eqn:Hrs; [done|]. exfalso.
    destruct (proj1 (Forall_forall _ _) Hrows r) as (_ & [name Hname] & _);
      [left|].
    destruct (foldl_distinct_step [] (student_name <$> r :: rows'))
      as [_ Hmem]; [constructor|].
    assert (name ∈ foldl distinct_step [] (student_name <$> r :: rows')) as Hn.
    { apply Hmem. right. rewrite fmap_cons, Hname. left. }
    destruct (foldl distinct_step [] (student_name <$> r :: rows'));
      [by apply elem_of_nil in Hn|simpl in Hu; lia].
  - intros Hn. destruct rows; [done|simpl in Hn; lia].
Qed.

Lemma summary_consistent_witness :
  wf three ∧
  ∃ n m u s',
    get_summary_stats three = (Returned (n, m, u), s') ∧
    0 <= u <= n ∧ (u = 0 ↔ n = 0).
Proof.
  assert (wf three) as Hwf by (apply wf_run, wf_init).
  split; [exact Hwf|].
  apply (summary_consistent three Hwf). reflexivity.
Defined.

(** X12: in a store reached from a new database the averages add the
    scores in the order of insertion: the table scan is the table. *)
Theorem averages_in_insertion_order (env : list (option exn)) (ops : list Op)
    (s0 : State) :
  __init__ None env = (Returned tt, s0) ->
  table_scan (view (run ops s0)) = t_rows (view (run ops s0)).
Proof.
  intros Hinit. assert (s0 = (__init__ None env).2) as -> by (by rewrite Hinit).
  destruct (in_order_run ops _ (in_order_init env)) as [Hasc _].
  by apply table_scan_ascending.
Qed.

Lemma averages_in_insertion_order_witness :
  __init__ None [] = (Returned tt, fresh) ∧
  table_scan (view three) = t_rows (view three).
Proof.
  split; [reflexivity|].
  apply (averages_in_insertion_order []
           [OpAdd (grade "Alice" "Math" 80); OpAdd (grade "Bob" "Art" 70);
            OpAdd (grade "alice" "Math" 90)] fresh). reflexivity.
Defined.

(** ** The window *)

(** X13: the form guards the store.  In a window opened on a new
    database, whatever the user types and clicks, every row of the file
    has a non-empty student_name, class, division and subject, an email
    and a roll number that are texts, and a score between 0 and 100. *)
Theorem form_guards_the_store (float : string -> option double)
    (format_1f : double -> string) (env : list (option exn)) (evs : list Event)
    (a0 : App) :
  PerformanceTrackerApp.__init__ format_1f None env = (Done tt, a0) ->
  Forall form_row
    (t_rows (disk (db (PerformanceTrackerApp.mainloop float format_1f evs a0)))).
Proof.
  intros Hinit.
  destruct (via_init format_1f None env) as (ops0 & Hdb0 & Hk0).
  rewrite Hinit in Hdb0. simpl in Hdb0.
  destruct (via_mainloop float format_1f evs a0) as (ops & Hdb & Hk).
  rewrite Hdb, Hdb0, <-run_app.
  apply (rows_keep_run form_row); [by apply Forall_app|].
  unfold rows_keep. destruct (init_tables env) as [-> ->].
  split; constructor.
Qed.

Lemma form_guards_the_store_witness :
  PerformanceTrackerApp.__init__ integer_format None [] = (Done tt, window) ∧
  Forall form_row
    (t_rows (disk (db (PerformanceTrackerApp.mainloop digits_float
                         integer_format (alice_form ++ [EvSave]) window)))).
Proof.
  split; [by vm_compute|].
  apply (form_guards_the_store digits_float integer_format []). by vm_compute.
Defined.

(** X14: a save that the form refuses changes nothing.  When a required
    entry is blank, or the score is no number, or not between 0 and 100,
    [add_grade] of the window only shows one "Input Error" box: the store
    is not called, and the form, the table and the cards stay as they
    are. *)
Theorem save_refused (float : string -> option double)
    (format_1f : double -> string) (a : App) :
  ¬ required_filled a ∨
  float (strip (score_entry a)) = None ∨
  (∃ score, float (strip (score_entry a)) = Some score ∧
            in_range score = false) ->
  ∃ text, PerformanceTrackerApp.add_grade float format_1f a
          = message (showerror "Input Error" text) a.
Proof.
  intros Hbad. unfold PerformanceTrackerApp.add_grade.
  destruct (_ || _) eqn:Hreq; [eauto|].
  apply required_filled_dec in Hreq.
  destruct Hbad as [Hno|[Hnone|(score & Hsome & Hrange)]]; [done| |].
  - rewrite Hnone. eauto.
  - rewrite Hsome, Hrange. simpl. eauto.
Qed.

Lemma save_refused_witness :
  ∃ text, PerformanceTrackerApp.add_grade digits_float integer_format
            (set_entry FScore "150" (set_entry FName "Alice" window))
          = message (showerror "Input Error" text)
              (set_entry FScore "150" (set_entry FName "Alice" window)).
Proof.
  apply (save_refused digits_float integer_format).
  left. intros (_ & Hclass & _). by apply Hclass.
Defined.

(** X15: a failure of the store leaves the form as it is.  When the form is
    accepted and [add_grade] of the store returns [False], the window
    shows one "Database Error" box and nothing else of it changes: the
    seven entries keep what was typed. *)
Theorem save_failure_keeps_form (float : string -> option double)
    (format_1f : double -> string) (a : App) (score : double) (q : Q)
    (s' : State) :
  required_filled a -> float (strip (score_entry a)) = Some score ->
  in_range score = true -> double_value score = Some q ->
  add_grade (form_params a q) (db a) = (Returned false, s') ->
  PerformanceTrackerApp.add_grade float format_1f a
    = message (showerror "Database Error" "Failed to save record.")
        (set_db s' a).
Proof.
  intros Hreq Hfloat Hrange Hq Hadd.
  rewrite (add_grade_accepted float format_1f a score q) by done.
  unfold abind, call_db. by rewrite Hadd.
Qed.

Lemma save_failure_keeps_form_witness :
  PerformanceTrackerApp.add_grade digits_float integer_format alice_typed_failing
  = message (showerror "Database Error" "Failed to save record.")
      (set_db (add_grade (form_params alice_typed_failing eighty_value)
                 (db alice_typed_failing)).2
         alice_typed_failing).
Proof.
  apply (save_failure_keeps_form digits_float integer_format
           alice_typed_failing eighty eighty_value);
    [by repeat split|by vm_compute..].
Defined.

(** X16: a successful save empties five entries and keeps two.  When the
    form is accepted and [add_grade] of the store returns [True], the
    entries for name, email, roll number, subject and score are empty
    afterwards, class and division keep their text, the search box is
    untouched, and a "Success" box that names the student was shown;
    this holds even when the reload that follows raises. *)
Theorem save_success_clears_form (float : string -> option double)
    (format_1f : double -> string) (a : App) (score : double) (q : Q)
    (s' : State) :
  required_filled a -> float (strip (score_entry a)) = Some score ->
  in_range score = true -> double_value score = Some q ->
  add_grade (form_params a q) (db a) = (Returned true, s') ->
  let a' := (PerformanceTrackerApp.add_grade float format_1f a).2 in
  name_entry a' = "" ∧ email_entry a' = "" ∧ roll_entry a' = "" ∧
  subject_entry a' = "" ∧ score_entry a' = "" ∧
  class_entry a' = class_entry a ∧ division_entry a' = division_entry a ∧
  search_term_var a' = search_term_var a ∧
  dialogs a ++ [showinfo "Success"
                  ("Record for " +:+ strip (name_entry a) +:+ " added.")]
    `prefix_of` dialogs a'.
Proof.
  intros Hreq Hfloat Hrange Hq Hadd a'. subst a'.
  rewrite (add_grade_saved float format_1f a score q s') by done.
  assert (keeps_form (saved_form s' a)
            ((PerformanceTrackerApp.load_grades format_1f "" >>
              PerformanceTrackerApp.generate_chart false) (saved_form s' a)).2)
    as ((Hn & He & Hc & Hd & Hr & Hs & Hsc) & Hsearch & Hdia & _).
  { apply keeps_form_abind; [apply keeps_form_load_grades|].
    intros _ a3. apply keeps_form_generate_chart. }
  rewrite Hn, He, Hc, Hd, Hr, Hs, Hsc, Hsearch. by split_and!.
Qed.

Lemma save_success_clears_form_witness :
  let a' := (PerformanceTrackerApp.add_grade digits_float integer_format
               alice_typed).2 in
  name_entry a' = "" ∧ email_entry a' = "" ∧ roll_entry a' = "" ∧
  subject_entry a' = "" ∧ score_entry a' = "" ∧
  class_entry a' = class_entry alice_typed ∧
  division_entry a' = division_entry alice_typed ∧
  search_term_var a' = search_term_var alice_typed ∧
  dialogs alice_typed
    ++ [showinfo "Success"
          ("Record for " +:+ strip (name_entry alice_typed) +:+ " added.")]
    `prefix_of` dialogs a'.
Proof.
  apply (save_success_clears_form digits_float integer_format alice_typed
           eighty eighty_value
           (add_grade (form_params alice_typed eighty_value)
              (db alice_typed)).2);
    [by repeat split|by vm_compute..].
Defined.

(** X17: closing the window.  [on_closing] closes the store and destroys
    the window without touching the file; the events that follow change
    nothing. *)
Theorem window_closes (float : string -> option double)
    (format_1f : double -> string) (evs : list Event) (a : App) :
  destroyed a = false ->
  let a' := PerformanceTrackerApp.handle float format_1f a EvClose in
  closed (db a') = true ∧ destroyed a' = true ∧ disk (db a') = disk (db a) ∧
  PerformanceTrackerApp.mainloop float format_1f evs a' = a'.
Proof.
  intros Hd a'. subst a'. unfold PerformanceTrackerApp.handle. rewrite Hd.
  split_and!; try done.
  induction evs as [|ev evs IH]; [done|]. simpl. exact IH.
Qed.

Lemma window_closes_witness :
  let a' := PerformanceTrackerApp.handle digits_float integer_format
              alice_typed EvClose in
  closed (db a') = true ∧ destroyed a' = true ∧
  disk (db a') = disk (db alice_typed) ∧
  PerformanceTrackerApp.mainloop digits_float integer_format
    [EvSave; EvChart] a' = a'.
Proof.
  apply (window_closes digits_float integer_format [EvSave; EvChart]
           alice_typed).
  reflexivity.
Defined.

(** X18: what [load_grades] shows.  When the store answers and the
    pattern of the search term is within the limit of LIKE, [load_grades]
    puts in the table one row per record of the listing, newest first,
    that the search term keeps, all records for the empty term, each with
    its score formatted; the cards for the total and for the students count
    the whole table whatever the term is; the average card reads "0.0 %" on
    an empty table; the store's tables and the form are not changed. *)
Theorem load_grades_shows (format_1f : double -> string) (term : string)
    (a : App) :
  wf (db a) -> ready 3 (db a) = true ->
  utf8_length term + 2 <= max_like_pattern_length ->
  ∃ a',
    PerformanceTrackerApp.load_grades format_1f term a = (Done tt, a') ∧
    tree a' = item_of format_1f
                <$> shown term (order_by_id_desc (t_rows (view (db a)))) ∧
    total_records_var a'
      = pretty (Z.of_nat (length (t_rows (view (db a))))) ∧
    unique_students_var a'
      = pretty (Z.of_nat (size (names_of (t_rows (view (db a)))))) ∧
    (t_rows (view (db a)) = [] -> overall_avg_var a' = "0.0 %") ∧
    disk (db a') = disk (db a) ∧ view (db a') = view (db a) ∧
    same_form a a'.
Proof.
  intros Hwf Hr Hlen.
  destruct (load_grades_ready format_1f term 0 a Hwf Hr Hlen)
    as (s' & Hload & Hsame & _).
  eexists. split; [exact Hload|].
  cbn [tree total_records_var unique_students_var overall_avg_var db].
  destruct (summary_of_counts (view (db a))) as [-> ->].
  split_and!; try done.
  - intros Hrows. by rewrite summary_of_empty.
  - apply Hsame.
  - by apply same_store_view.
Qed.

Lemma load_grades_shows_witness :
  wf (db (set_db three window)) ∧
  ∃ a',
    PerformanceTrackerApp.load_grades integer_format "ali"
      (set_db three window) = (Done tt, a') ∧
    tree a' = item_of integer_format
                <$> shown "ali"
                      (order_by_id_desc
                         (t_rows (view (db (set_db three window))))) ∧
    total_records_var a'
      = pretty (Z.of_nat (length (t_rows (view (db (set_db three window)))))) ∧
    unique_students_var a'
      = pretty (Z.of_nat
                  (size (names_of (t_rows (view (db (set_db three window))))))) ∧
    (t_rows (view (db (set_db three window))) = [] ->
     overall_avg_var a' = "0.0 %") ∧
    disk (db a') = disk (db (set_db three window)) ∧
    view (db a') = view (db (set_db three window)) ∧
    same_form (set_db three window) a'.
Proof.
  assert (wf (db (set_db three window))) as Hwf
    by (change (db (set_db three window)) with three; apply wf_run, wf_init).
  split; [exact Hwf|].
  apply (load_grades_shows integer_format "ali" (set_db three window) Hwf);
    by vm_compute.
Defined.

(** X19: the chart of a store.  When the store answers,
    [generate_chart] on an empty table shows the "Not enough data" box and
    the placeholder; otherwise it shows no box and hands to the bar plot
    one bar per distinct subject of the table, as many averages as
    subjects. *)
Theorem generate_chart_of_store (a : App) :
  ready 1 (db a) = true ->
  ∃ a',
    PerformanceTrackerApp.generate_chart false a = (Done tt, a') ∧
    match t_rows (view (db a)) with
    | [] =>
        chart a' = Placeholder ∧
        dialogs a' =
          dialogs a ++
          [showinfo "Chart Info" "Not enough data. Add some grades first!"]
    | _ :: _ =>
        dialogs a' = dialogs a ∧
        ∃ subjects averages,
          chart a' = Bars subjects averages ∧ NoDup subjects ∧
          length subjects = length averages ∧
          ∀ sj, Some sj ∈ subjects ↔
                ∃ r, r ∈ t_rows (view (db a)) ∧ subject r = Some sj
    end.
Proof.
  intros Hr. destruct (generate_chart_ready 0 a Hr) as (s' & _ & _ & Hgen).
  eexists. split; [exact Hgen|].
  pose proof (select_avg_by_subject_nil (view (db a))) as Hnil.
  pose proof (select_avg_by_subject_subjects (view (db a))) as (Hnd & Hlen & Hin).
  destruct (t_rows (view (db a))) as [|r rows] eqn:Hrows.
  - rewrite (proj2 Hnil) by done. by split.
  - destruct (select_avg_by_subject (view (db a))) as [|x res] eqn:Hres.
    + by pose proof (proj1 Hnil eq_refl).
    + simpl. split; [done|]. eauto 10.
Qed.

Lemma generate_chart_of_store_witness :
  ∃ a',
    PerformanceTrackerApp.generate_chart false window = (Done tt, a') ∧
    match t_rows (view (db window)) with
    | [] =>
        chart a' = Placeholder ∧
        dialogs a' =
          dialogs window ++
          [showinfo "Chart Info" "Not enough data. Add some grades first!"]
    | _ :: _ =>
        dialogs a' = dialogs window ∧
        ∃ subjects averages,
          chart a' = Bars subjects averages ∧ NoDup subjects ∧
          length subjects = length averages ∧
          ∀ sj, Some sj ∈ subjects ↔
                ∃ r, r ∈ t_rows (view (db window)) ∧ subject r = Some sj
    end.
Proof.
  apply (generate_chart_of_store window). reflexivity.
Defined.

(** X20: a successful save reloads everything.  When the form is accepted
    and the store answers, [add_grade] of the window stores the record and
    then shows in the table every record of the file, newest first,
    whatever the search box holds; the total card counts them; the chart
    shows bars; and the only box shown is the "Success" box. *)
Theorem save_reloads_all (float : string -> option double)
    (format_1f : double -> string) (a : App) (score : double) (q : Q) :
  wf (db a) -> required_filled a ->
  float (strip (score_entry a)) = Some score -> in_range score = true ->
  double_value score = Some q ->
  ready 6 (db a) = true -> id_available (view (db a)) = true ->
  ∃ a',
    PerformanceTrackerApp.add_grade float format_1f a = (Done tt, a') ∧
    new_row (t_seq (disk (db a'))) (form_params a q) ∈ t_rows (disk (db a')) ∧
    tree a' = item_of format_1f <$> order_by_id_desc (t_rows (disk (db a'))) ∧
    total_records_var a' = pretty (Z.of_nat (length (t_rows (disk (db a'))))) ∧
    (∃ subjects averages, chart a' = Bars subjects averages) ∧
    dialogs a' =
      dialogs a ++
      [showinfo "Success"
         ("Record for " +:+ strip (name_entry a) +:+ " added.")] ∧
    search_term_var a' = search_term_var a.
Proof.
  intros Hwf Hreq Hfloat Hrange Hq Hr Hk.
  assert (insert_ok (form_params a q) (db a) = true) as Hok.
  { unfold insert_ok. rewrite (ready_le 2 6) by (done || lia).
    rewrite Hk. done. }
  pose proof (add_grade_success _ _ Hok) as Hadd.
  set (s' := mkState _ _ _ _ _) in Hadd.
  assert (wf s') as Hwf'.
  { pose proof (wf_step (db a) (OpAdd (form_params a q)) Hwf) as H.
    unfold step in H. by rewrite Hadd in H. }
  assert (ready 4 s' = true) as Hr' by (by apply ready_after_two).
  rewrite (add_grade_saved float format_1f a score q s') by done.
  destruct (load_grades_ready format_1f "" 1 (saved_form s' a) Hwf' Hr')
    as (s3 & Hload & Hsame3 & Hr3); [done|].
  unfold abind at 1. rewrite Hload. rewrite shown_empty.
  set (a3 := mkApp s3 _ _ _ _ _ _ _ _ _ _ _ _ _ _ _).
  destruct (generate_chart_ready 0 a3 Hr3) as (s4 & Hsame4 & _ & Hgen).
  rewrite Hgen. eexists. split; [reflexivity|].
  assert (view s3 = disk s') as Hv3 by (by rewrite (same_store_view _ _ Hsame3)).
  assert (disk s4 = disk s') as Hd4.
  { destruct Hsame4 as [Hd4 _], Hsame3 as [Hd3 _]. exact (eq_trans Hd4 Hd3). }
  destruct (select_avg_by_subject (view (db a3))) as [|x res] eqn:Hres.
  { apply select_avg_by_subject_nil in Hres. simpl in Hres.
    rewrite Hv3 in Hres. simpl in Hres. by destruct (t_rows (view (db a))). }
  cbn [db tree total_records_var chart dialogs search_term_var saved_form].
  rewrite Hd4. destruct (summary_of_counts (disk s')) as [Hn _].
  split_and!; try done.
  - simpl. apply elem_of_app. right. by apply list_elem_of_singleton.
  - subst a3. cbn [total_records_var].
    change (view (db (saved_form s' a))) with (disk s'). by rewrite Hn.
  - eauto.
Qed.

Lemma save_reloads_all_witness :
  wf (db alice_typed) ∧
  ∃ a',
    PerformanceTrackerApp.add_grade digits_float integer_format alice_typed
      = (Done tt, a') ∧
    new_row (t_seq (disk (db a'))) (form_params alice_typed eighty_value)
      ∈ t_rows (disk (db a')) ∧
    tree a' = item_of integer_format
                <$> order_by_id_desc (t_rows (disk (db a'))) ∧
    total_records_var a' = pretty (Z.of_nat (length (t_rows (disk (db a'))))) ∧
    (∃ subjects averages, chart a' = Bars subjects averages) ∧
    dialogs a' =
      dialogs alice_typed ++
      [showinfo "Success"
         ("Record for " +:+ strip (name_entry alice_typed) +:+ " added.")] ∧
    search_term_var a' = search_term_var alice_typed.
Proof.
  assert (wf (db alice_typed)) as Hwf
    by (change (db alice_typed) with fresh; apply wf_init).
  split; [exact Hwf|].
  apply (save_reloads_all digits_float integer_format alice_typed eighty
           eighty_value Hwf);
    [by repeat split|by vm_compute..].
Defined.
